(** * A story-upload web application: event log, media store, gate

    Shallow embedding of [app.py] (a Flask application) and proofs of the
    properties its specification states.

    The handlers are written in a small reader/state/exception monad [M]:
    the state is the [world] (the CSV log file, the upload directory and a
    journal of the external operations performed), the reader component is
    the [env] of one request (what the operating system, the clock and the
    remote services answer during it), and exceptions are Python's.
    [try_except] is Python's [try: ... except Exception as e: ...].

    Library code that [app.py] calls but does not contain is handled in one
    of two ways.  Calls with an outcome decided outside the program
    (file-system failures, the remote media host, the webhook, the clock)
    are answered by the [env].  The pure string functions [str.lower],
    [werkzeug.utils.secure_filename], [werkzeug.security.safe_join] and the
    URL quoting done by [url_for] are [Variable]s of the section: every
    theorem holds for whatever these functions compute.  Instances of them
    on ASCII text are given for the examples. *)

From Stdlib Require Import ZArith String Ascii List Bool Lia.
From stdpp Require Import base tactics option list strings gmap.

Local Open Scope string_scope.
Local Open Scope Z_scope.

(** ** Python strings *)

(** [c in s] for a one-character [c]. *)
Fixpoint str_contains (c : ascii) (s : string) : bool :=
  match s with
  | EmptyString => false
  | String a rest => if Ascii.eqb a c then true else str_contains c rest
  end.

(** The split point of [s.rsplit(c, 1)]: the text before and after the
    LAST occurrence of [c], or [None] when [c] does not occur. *)
Fixpoint rsplit_point (c : ascii) (s : string) : option (string * string) :=
  match s with
  | EmptyString => None
  | String a rest =>
      match rsplit_point c rest with
      | Some (before, after) => Some (String a before, after)
      | None => if Ascii.eqb a c then Some (EmptyString, rest) else None
      end
  end.

(** [s.rsplit(c, 1)]: a list of one or two strings. *)
Definition rsplit1 (c : ascii) (s : string) : list string :=
  match rsplit_point c s with
  | Some (before, after) => [before; after]
  | None => [s]
  end.

(** [s.startswith(c)] for a one-character [c]. *)
Definition startswith (c : ascii) (s : string) : bool :=
  match s with
  | String a _ => Ascii.eqb a c
  | EmptyString => false
  end.

(** [s.endswith(c)] for a one-character [c]. *)
Fixpoint endswith (c : ascii) (s : string) : bool :=
  match s with
  | EmptyString => false
  | String a EmptyString => Ascii.eqb a c
  | String _ rest => endswith c rest
  end.

(** Truth value of a Python string: the empty string is false. *)
Definition truthy (s : string) : bool :=
  match s with EmptyString => false | _ => true end.

(** [os.path.join(a, b)] on POSIX paths. *)
Definition path_join (a b : string) : string :=
  if startswith "/" b then b
  else if negb (truthy a) || endswith "/" a then a ++ b
  else a ++ "/" ++ b.

(** [os.getenv(key, default)]. *)
Definition getenv (environ : gmap string string) (key dflt : string) : string :=
  default dflt (environ !! key).

(** ** Configuration

    The module-level constants that [app.py] reads from the process
    environment when it is imported. *)

Record config := {
  root_path : string;            (* app.root_path *)
  GOOGLE_SCRIPT_URL : string;
  ADMIN_PASSWORD : string;
}.

Definition load_config (root : string) (environ : gmap string string) : config :=
  {| root_path := root;
     GOOGLE_SCRIPT_URL := getenv environ "GOOGLE_SCRIPT_URL" "";
     ADMIN_PASSWORD := getenv environ "ADMIN_PASSWORD" "mrshaik" |}.

Definition with_script_url (url : string) (cfg : config) : config :=
  {| root_path := root_path cfg;
     GOOGLE_SCRIPT_URL := url;
     ADMIN_PASSWORD := ADMIN_PASSWORD cfg |}.

Definition STORY_FOLDER (cfg : config) : string :=
  path_join (path_join (root_path cfg) "static") "uploads".

Definition ALLOWED_EXTENSIONS : gset string :=
  {[ "mp4"; "mov"; "webm"; "ogg"; "mkv" ]}.

(** ** The world, the environment of a request, and the monad *)

(** A Python exception, with its message. *)
Inductive exn := Exception (msg : string).

Definition exn_msg (e : exn) : string := match e with Exception m => m end.

(** The external operations a handler performs, in the order it performs
    them.  An operation is journalled when it is attempted, whether or not
    it succeeds. *)
Inductive io_event :=
| IoCsvAppend (row : list string)            (* writer.writerow(row) on LOG_FILE opened 'a' *)
| IoFileSave (path : string)                 (* file.save(path) *)
| IoRemoteUpload (data : list Byte.byte)     (* cloudinary.uploader.upload_large(fobj, ...) *)
| IoHttpPost (url : string) (payload : list (string * string))  (* requests.post(url, json=payload) *)
| IoPrint (msg : string).                    (* print(...) on the operator's console *)

(** The CSV log is modelled by the rows [csv.reader] yields for it; the
    upload directory by a map from path to content. *)
Record world := {
  log_file : option (list (list string));    (* None: LOG_FILE does not exist *)
  uploads : gmap string (list Byte.byte);
  journal : list io_event;
}.

(** What [file.save(path)] does. *)
Inductive save_outcome :=
| SaveOk                                         (* the whole stream is written *)
| SaveFails (e : exn) (residue : option (list Byte.byte)).
    (* raises; [residue] is what the failed write left at the path, [None]
       when it did not touch the path *)

(** What [cloudinary.uploader.upload_large] does with the bytes it reads. *)
Inductive cloud_outcome :=
| CloudRaises (e : exn)
| CloudReturns (upload_result : gmap string string).

(** What [requests.post] does: it raises (connection error, timeout) or
    returns a response, whose status the caller does not look at. *)
Inductive post_outcome :=
| PostRaises (e : exn)
| PostReturns (status : Z).

Record env := {
  now : string;                         (* datetime.now().strftime('%Y-%m-%d %H:%M:%S') *)
  csv_write_error : option exn;         (* raised by open(LOG_FILE, 'a') or writerow, if any *)
  csv_read_error : option exn;          (* raised by open(LOG_FILE, 'r') or the reader, if any *)
  post_result : post_outcome;
  save_result : save_outcome;
  cloud_result : list Byte.byte → cloud_outcome;
}.

Definition with_post_result (o : post_outcome) (e : env) : env :=
  {| now := now e; csv_write_error := csv_write_error e;
     csv_read_error := csv_read_error e; post_result := o;
     save_result := save_result e; cloud_result := cloud_result e |}.

Inductive result (A : Type) :=
| Ok (a : A)
| Raise (e : exn).
Arguments Ok {A} a.
Arguments Raise {A} e.

Definition M (A : Type) : Type := env → world → result A * world.

Definition ret {A} (a : A) : M A := λ _ w, (Ok a, w).

Definition bind {A B} (m : M A) (k : A → M B) : M B :=
  λ e w, match m e w with
         | (Ok a, w') => k a e w'
         | (Raise x, w') => (Raise x, w')
         end.

Definition raise {A} (x : exn) : M A := λ _ w, (Raise x, w).

(** [try: body  except Exception as e: handler e] *)
Definition try_except {A} (body : M A) (handler : exn → M A) : M A :=
  λ e w, match body e w with
         | (Ok a, w') => (Ok a, w')
         | (Raise x, w') => handler x e w'
         end.

Definition ask {A} (f : env → A) : M A := λ e w, (Ok (f e), w).
Definition gets {A} (f : world → A) : M A := λ _ w, (Ok (f w), w).
Definition modify (f : world → world) : M unit := λ _ w, (Ok tt, f w).

Notation "'let*' x := m 'in' k" := (bind m (λ x, k))
  (at level 10, x name, m at level 100, k at level 200, only parsing).
Notation "m >> k" := (bind m (λ _, k))
  (at level 100, k at level 200, right associativity, only parsing).

Definition set_log (l : option (list (list string))) (w : world) : world :=
  {| log_file := l; uploads := uploads w; journal := journal w |}.
Definition set_uploads (u : gmap string (list Byte.byte)) (w : world) : world :=
  {| log_file := log_file w; uploads := u; journal := journal w |}.
Definition record_io (ev : io_event) (w : world) : world :=
  {| log_file := log_file w; uploads := uploads w; journal := (journal w ++ [ev])%list |}.

(** *** Primitive operations *)

Definition print (msg : string) : M unit := modify (record_io (IoPrint msg)).

(** [with open(LOG_FILE, 'a', ...) as f: csv.writer(f).writerow(row)].
    Opening for append creates a missing file. *)
Definition csv_append (row : list string) : M unit :=
  modify (record_io (IoCsvAppend row)) >>
  let* err := ask csv_write_error in
  match err with
  | Some x => raise x
  | None => modify (λ w, set_log (Some (default [] (log_file w) ++ [row])%list) w)
  end.

(** [with open(LOG_FILE, 'w', ...) as f: csv.writer(f).writerow(row)]. *)
Definition csv_create (row : list string) : M unit :=
  let* err := ask csv_write_error in
  match err with
  | Some x => raise x
  | None => modify (set_log (Some [row]))
  end.

(** [requests.post(url, json=payload, timeout=5)]; the response is dropped. *)
Definition requests_post (url : string) (payload : list (string * string)) : M unit :=
  modify (record_io (IoHttpPost url payload)) >>
  let* o := ask post_result in
  match o with
  | PostRaises x => raise x
  | PostReturns _ => ret tt
  end.

(** [with open(LOG_FILE, 'r', ...) as f: rows = list(csv.DictReader(f))].

    [DictReader] takes the first row as the field names, skips blank rows,
    and builds for every other row the dict [dict(zip(fieldnames, row))],
    completed with [None] for the field names the row is too short for.
    Fields beyond the field names are stored under the key [None], which no
    string key looks up: they are left out. *)
Fixpoint zip_dict (fieldnames row : list string)
    (d : gmap string (option string)) : gmap string (option string) :=
  match fieldnames with
  | [] => d
  | k :: ks =>
      match row with
      | v :: vs => zip_dict ks vs (<[k := Some v]> d)
      | [] => zip_dict ks [] (<[k := None]> d)
      end
  end.

Definition DictReader (rows : list (list string)) : list (gmap string (option string)) :=
  match rows with
  | [] => []
  | fieldnames :: data =>
      (λ r, zip_dict fieldnames r ∅) <$> filter (λ r, r ≠ []) data
  end.

Definition csv_read_dicts : M (list (gmap string (option string))) :=
  let* err := ask csv_read_error in
  let* f := gets log_file in
  match f, err with
  | None, _ => raise (Exception "FileNotFoundError")
  | Some _, Some x => raise x
  | Some rows, None => ret (DictReader rows)
  end.

(** [row.get(key)]: [None] when the key is absent. *)
Definition dict_get (row : gmap string (option string)) (key : string) : option string :=
  mjoin (row !! key).

(** [file.stream.seek(0); file.save(path)]. *)
Definition file_save (data : list Byte.byte) (path : string) : M unit :=
  modify (record_io (IoFileSave path)) >>
  let* o := ask save_result in
  match o with
  | SaveOk => modify (λ w, set_uploads (<[path := data]> (uploads w)) w)
  | SaveFails x residue =>
      modify (λ w, match residue with
                   | Some part => set_uploads (<[path := part]> (uploads w)) w
                   | None => w
                   end) >>
      raise x
  end.

(** [open(path, 'rb')] and the read of the whole file. *)
Definition open_rb (path : string) : M (list Byte.byte) :=
  let* u := gets uploads in
  match u !! path with
  | Some data => ret data
  | None => raise (Exception "FileNotFoundError")
  end.

(** [cloudinary.uploader.upload_large(fobj, resource_type='video', folder='stories')]. *)
Definition upload_large (data : list Byte.byte) : M (gmap string string) :=
  modify (record_io (IoRemoteUpload data)) >>
  let* f := ask cloud_result in
  match f data with
  | CloudRaises x => raise x
  | CloudReturns r => ret r
  end.

(** ** Requests and responses *)

Record file_storage := {
  filename : string;
  stream : list Byte.byte;
}.

Record request := {
  remote_addr : option string;
  get_json : option (gmap string string);   (* request.get_json(); None: a falsy payload *)
  form : gmap string string;
  files : gmap string file_storage;
  url_origin : string;                      (* scheme and host the request came to *)
}.

Inductive response :=
| Html (template : string)                   (* render_template(template) *)
| Json (obj : list (string * string))        (* jsonify(obj) *)
| Text (body : string) (status : Z)          (* return body, status *)
| Redirect (location : string)               (* redirect(location) *)
| SendFile (data : list Byte.byte)           (* send_from_directory, file found *)
| NotFound.

(** The status line of a response. *)
Definition status_code (r : response) : Z :=
  match r with
  | Html _ | Json _ | SendFile _ => 200
  | Text _ s => s
  | Redirect _ => 302
  | NotFound => 404
  end.

(** The endpoints registered by [@app.route]. *)
Inductive endpoint :=
| ep_index
| ep_save_password
| ep_main
| ep_upload_story_video
| ep_last_admin_story
| ep_last_user_story
| ep_log_chat
| ep_uploaded_file (filename : string).

(** [request.remote_addr or 'unknown'] *)
Definition client_ip (req : request) : string :=
  match remote_addr req with
  | Some a => if truthy a then a else "unknown"
  | None => "unknown"
  end.

(** The header row written when the module is imported. *)
Definition header : list string :=
  ["timestamp"; "ip"; "event"; "password"; "chat"; "story_url"].

(** Module-level code of [app.py]: create the log with its header when it
    does not exist. *)
Definition startup : M unit :=
  let* f := gets log_file in
  match f with
  | None => csv_create header
  | Some _ => ret tt
  end.

(** [log_event(ip, event, password='', chat='', story_url='')]; an
    argument the caller leaves out is [None] here and takes its default. *)
Definition log_event (cfg : config) (ip event : string)
    (password chat story_url : option string) : M unit :=
  let password := default "" password in
  let chat := default "" chat in
  let story_url := default "" story_url in
  let* timestamp := ask now in
  try_except
    (csv_append [timestamp; ip; event; password; chat; story_url])
    (λ e, print ("Failed to write to CSV log: " ++ exn_msg e)) >>
  if truthy (GOOGLE_SCRIPT_URL cfg) then
    try_except
      (requests_post (GOOGLE_SCRIPT_URL cfg)
         [("event", event); ("password", password); ("chat", chat);
          ("story_url", story_url); ("ip", ip)])
      (λ e, print ("Failed to send to Google Sheet: " ++ exn_msg e))
  else ret tt.

(** The loop of [last_admin_story] and [last_user_story] over
    [reversed(rows)]: the story_url of the first row that passes the test,
    [url] when the loop ends without a [break]. *)
Fixpoint scan_rows (kind : string) (rows : list (gmap string (option string)))
    (url : string) : string :=
  match rows with
  | [] => url
  | row :: rest =>
      if bool_decide (dict_get row "event" = Some kind)
         && truthy (default "" (dict_get row "story_url"))
      then default "" (dict_get row "story_url")
      else scan_rows kind rest url
  end.

(** The body shared by the two query handlers, which differ in the event
    kind only. *)
Definition find_latest (kind failure : string) : M string :=
  try_except
    (let* rows := csv_read_dicts in
     ret (scan_rows kind (reverse rows) ""))
    (λ e, print (failure ++ exn_msg e) >> ret "").

Definition last_admin_story : M response :=
  let* url := find_latest "admin_story_upload" "Failed to read last_admin_story: " in
  ret (Json [("url", url)]).

Definition last_user_story : M response :=
  let* url := find_latest "user_story_upload" "Failed to read last_user_story: " in
  ret (Json [("url", url)]).

Definition index : M response := ret (Html "index.html").
Definition main : M response := ret (Html "main.html").

(** ** Vocabulary of the statements *)

(** An event record, with the fields of one log row in their order. *)
Record event_record := {
  timestamp : string;
  source_ip : string;
  event_kind : string;
  credential : string;
  chat_text : string;
  story_url : string;
}.

Definition record_row (r : event_record) : list string :=
  [timestamp r; source_ip r; event_kind r; credential r; chat_text r; story_url r].

(** The rows handed to the CSV writer, the paths saved to and the contents
    offered to the remote host, in a journal. *)
Definition csv_appends (j : list io_event) : list (list string) :=
  omap (λ ev, match ev with IoCsvAppend r => Some r | _ => None end) j.

Definition file_saves (j : list io_event) : list string :=
  omap (λ ev, match ev with IoFileSave p => Some p | _ => None end) j.

Definition remote_uploads (j : list io_event) : list (list Byte.byte) :=
  omap (λ ev, match ev with IoRemoteUpload d => Some d | _ => None end) j.

Definition http_posts (j : list io_event) : list string :=
  omap (λ ev, match ev with IoHttpPost u _ => Some u | _ => None end) j.

(** What a run leaves for its caller and on disk: the result, the log and
    the upload directory. *)
Definition outcome {A} (x : result A * world)
    : result A * option (list (list string)) * gmap string (list Byte.byte) :=
  (x.1, log_file x.2, uploads x.2).

Definition with_csv_write_error (x : option exn) (e : env) : env :=
  {| now := now e; csv_write_error := x;
     csv_read_error := csv_read_error e; post_result := post_result e;
     save_result := save_result e; cloud_result := cloud_result e |}.

(** A record matches a query when it has the queried kind and a story URL. *)
Definition is_story (kind : string) (r : event_record) : Prop :=
  event_kind r = kind ∧ story_url r ≠ "".

(** ** Reference instances of the library functions, on ASCII text *)

Definition lower_char (c : ascii) : ascii :=
  let n := nat_of_ascii c in
  if (65 <=? n)%nat && (n <=? 90)%nat then ascii_of_nat (n + 32) else c.

Fixpoint ascii_lower (s : string) : string :=
  match s with
  | EmptyString => EmptyString
  | String c rest => String (lower_char c) (ascii_lower rest)
  end.

Definition is_space (c : ascii) : bool :=
  let n := nat_of_ascii c in
  (n =? 32)%nat || ((9 <=? n)%nat && (n <=? 13)%nat).

Definition is_filename_char (c : ascii) : bool :=
  let n := nat_of_ascii c in
  ((48 <=? n)%nat && (n <=? 57)%nat) || ((65 <=? n)%nat && (n <=? 90)%nat)
  || ((97 <=? n)%nat && (n <=? 122)%nat)
  || (n =? 95)%nat || (n =? 46)%nat || (n =? 45)%nat.

Definition is_dot_or_underscore (c : ascii) : bool :=
  let n := nat_of_ascii c in (n =? 46)%nat || (n =? 95)%nat.

(** ["_".join(s.split())], with path separators taken as spaces. *)
Fixpoint join_words (s : string) (started pending : bool) : string :=
  match s with
  | EmptyString => EmptyString
  | String c rest =>
      if is_space c || Ascii.eqb c "/" then join_words rest started started
      else if pending then String "_" (String c (join_words rest true false))
      else String c (join_words rest true false)
  end.

Fixpoint keep_chars (p : ascii → bool) (s : string) : string :=
  match s with
  | EmptyString => EmptyString
  | String c rest => if p c then String c (keep_chars p rest) else keep_chars p rest
  end.

Fixpoint lstrip (p : ascii → bool) (s : string) : string :=
  match s with
  | EmptyString => EmptyString
  | String c rest => if p c then lstrip p rest else s
  end.

Fixpoint rstrip (p : ascii → bool) (s : string) : string :=
  match s with
  | EmptyString => EmptyString
  | String c rest =>
      match rstrip p rest with
      | EmptyString => if p c then EmptyString else String c EmptyString
      | r => String c r
      end
  end.

(** werkzeug's [secure_filename] on ASCII file names. *)
Definition secure_filename_ascii (s : string) : string :=
  rstrip is_dot_or_underscore
    (lstrip is_dot_or_underscore
       (keep_chars is_filename_char (join_words s false false))).

(** werkzeug's [safe_join] on a name without path separator, which
    [normpath] leaves as it is. *)
Definition safe_join_plain (directory name : string) : option string :=
  if str_contains "/" name || bool_decide (name = "..") then None
  else Some (path_join directory name).

(** Quoting leaves the characters of a secured file name as they are. *)
Definition url_quote_plain (s : string) : string := s.

Section App.

(** Library functions of which only the results matter here. *)
Variable str_lower : string → string.         (* str.lower() *)
Variable secure_filename : string → string.   (* werkzeug.utils.secure_filename *)
Variable url_quote : string → string.         (* quoting of a path argument by url_for *)
Variable safe_join : string → string → option string.
                                              (* werkzeug.security.safe_join; None: refused *)

(** The URL rule of each endpoint, with its arguments filled in. *)
Definition url_rule (e : endpoint) : string :=
  match e with
  | ep_index => "/"
  | ep_save_password => "/save_password"
  | ep_main => "/main"
  | ep_upload_story_video => "/upload_story_video"
  | ep_last_admin_story => "/last_admin_story"
  | ep_last_user_story => "/last_user_story"
  | ep_log_chat => "/log_chat"
  | ep_uploaded_file f => "/uploads/" ++ url_quote f
  end.

(** [url_for(endpoint, ..., _external=external)], for an application served
    at the root of its host. *)
Definition url_for (req : request) (e : endpoint) (external : bool) : string :=
  (if external then url_origin req else "") ++ url_rule e.

Definition allowed_file (filename : string) : bool :=
  str_contains "." filename
  && match rsplit1 "." filename !! 1%nat with
     | Some ext => bool_decide (str_lower ext ∈ ALLOWED_EXTENSIONS)
     | None => false
     end.

Definition save_password (cfg : config) (req : request) : M response :=
  let data := default ∅ (get_json req) in
  let password := default "" (data !! "password") in
  let ip := client_ip req in
  if bool_decide (password = ADMIN_PASSWORD cfg) then
    log_event cfg ip "password_attempt" (Some password) None None >>
    ret (Json [("redirect", url_for req ep_main false)])
  else
    log_event cfg ip "password_attempt_failed" (Some password) None None >>
    ret (Json [("message", "Wrong password ❌")]).

Definition upload_story_video (cfg : config) (req : request) : M response :=
  match files req !! "video" with
  | None => ret (Text "No file part" 400)
  | Some file =>
      if bool_decide (filename file = "") then ret (Text "No selected file" 400)
      else
        let uploader := default "user" (form req !! "uploader") in
        let ip := client_ip req in
        if negb (allowed_file (filename file)) then ret (Text "Unsupported file type" 400)
        else
          let filename := secure_filename (filename file) in
          let local_path := path_join (STORY_FOLDER cfg) filename in
          try_except
            (file_save (stream file) local_path)
            (λ e, print ("Local save failed: " ++ exn_msg e)) >>
          let* video_url :=
            try_except
              (let* data := open_rb local_path in
               let* upload_result := upload_large data in
               let video_url := default "" (upload_result !! "secure_url") in
               print ("Cloudinary upload success: " ++ video_url) >>
               ret video_url)
              (λ e, print ("Cloudinary upload failed: " ++ exn_msg e) >>
                    ret (url_for req (ep_uploaded_file filename) true)) in
          let event_name :=
            if bool_decide (uploader = "admin")
            then "admin_story_upload" else "user_story_upload" in
          log_event cfg ip event_name None None (Some video_url) >>
          ret (Redirect (url_for req ep_main false))
  end.

(** [send_from_directory(STORY_FOLDER, filename)] answers 404 when the
    joined path is refused or is not a file. *)
Definition uploaded_file (cfg : config) (filename : string) : M response :=
  match safe_join (STORY_FOLDER cfg) filename with
  | None => ret NotFound
  | Some path =>
      let* u := gets uploads in
      match u !! path with
      | Some data => ret (SendFile data)
      | None => ret NotFound
      end
  end.

Definition log_chat (cfg : config) (req : request) : M response :=
  let data := default ∅ (get_json req) in
  let chat_text := default "" (data !! "chat") in
  let ip := client_ip req in
  log_event cfg ip "chat_message" None (Some chat_text) None >>
  ret (Json [("status", "ok")]).


(** The upload directory after [file.save(path)] has run. *)
Definition disk_after_save (e : env) (path : string) (data : list Byte.byte)
    (u : gmap string (list Byte.byte)) : gmap string (list Byte.byte) :=
  match save_result e with
  | SaveOk => <[path := data]> u
  | SaveFails _ (Some part) => <[path := part]> u
  | SaveFails _ None => u
  end.

(** The event kind logged for an upload with the given form. *)
Definition upload_kind (req : request) : string :=
  if bool_decide (form req !! "uploader" = Some "admin")
  then "admin_story_upload" else "user_story_upload".

(** A request that passes the three checks of [upload_story_video]. *)
Definition validated (req : request) (file : file_storage) : Prop :=
  files req !! "video" = Some file
  ∧ filename file ≠ ""
  ∧ allowed_file (filename file) = true.

(** The file name has an extension of the allow-list: it ends in a dot
    followed by a dot-free extension that, lower-cased, is in
    [ALLOWED_EXTENSIONS].  This is the specification's wording, which
    [allowed_file] is compared with below. *)
Definition has_allowed_extension (filename : string) : Prop :=
  ∃ stem ext, filename = stem ++ "." ++ ext
              ∧ str_contains "." ext = false
              ∧ str_lower ext ∈ ALLOWED_EXTENSIONS.

(** The URL an upload resolves to when the upload directory is [disk]
    once the local save has run. *)
Definition resolved_url (cfg : config) (req : request) (file : file_storage)
    (e : env) (disk : gmap string (list Byte.byte)) : string :=
  let fname := secure_filename (filename file) in
  match disk !! path_join (STORY_FOLDER cfg) fname with
  | None => url_for req (ep_uploaded_file fname) true
  | Some data =>
      match cloud_result e data with
      | CloudRaises _ => url_for req (ep_uploaded_file fname) true
      | CloudReturns r => default "" (r !! "secure_url")
      end
  end.

(** The row test of the query loop, on a parsed row. *)
Definition row_matches (kind : string) (d : gmap string (option string)) : Prop :=
  dict_get d "event" = Some kind ∧ default "" (dict_get d "story_url") ≠ "".

(** Replaying a list of records through [log_event], oldest first. *)
Fixpoint append_all (cfg : config) (records : list event_record) : M unit :=
  match records with
  | [] => ret tt
  | r :: rest =>
      log_event cfg (source_ip r) (event_kind r) (Some (credential r))
        (Some (chat_text r)) (Some (story_url r)) >>
      append_all cfg rest
  end.

(** A record as [log_event] stamps it. *)
Definition stamped (ts : string) (r : event_record) : event_record :=
  {| timestamp := ts; source_ip := source_ip r; event_kind := event_kind r;
     credential := credential r; chat_text := chat_text r;
     story_url := story_url r |}.

(** A log in the persisted format: the header, then one six-field row for
    each record. *)
Definition well_formed_log (w : world) : Prop :=
  ∃ records, log_file w = Some (header :: (record_row <$> records)).

(** The credential a gate request submits. *)
Definition submitted_password (req : request) : string :=
  default "" (default ∅ (get_json req) !! "password").

(** The log file after one row has been handed to the writer. *)
Definition log_after (e : env) (row : list string) (w : world)
    : option (list (list string)) :=
  match csv_write_error e with
  | None => Some (default [] (log_file w) ++ [row])%list
  | Some _ => log_file w
  end.

(** ** Sample inputs, used by the examples below *)

Definition sample_cfg : config := load_config "/srv/app" ∅.

Definition fresh_world : world :=
  {| log_file := None; uploads := ∅; journal := [] |}.

(** The remote host is unreachable; everything else works. *)
Definition offline_env : env :=
  {| now := "2024-05-01 12:00:00";
     csv_write_error := None;
     csv_read_error := None;
     post_result := PostReturns 200;
     save_result := SaveOk;
     cloud_result := λ _, CloudRaises (Exception "network unreachable") |}.

(** The remote host answers with a result that carries no [secure_url]. *)
Definition env_without_secure_url : env :=
  {| now := "2024-05-01 12:00:00";
     csv_write_error := None;
     csv_read_error := None;
     post_result := PostReturns 200;
     save_result := SaveOk;
     cloud_result := λ _, CloudReturns {[ "public_id" := "stories/clip" ]} |}.

(** The local save fails without writing; the remote host would accept. *)
Definition env_disk_full : env :=
  {| now := "2024-05-01 12:00:00";
     csv_write_error := None;
     csv_read_error := None;
     post_result := PostReturns 200;
     save_result := SaveFails (Exception "No space left on device") None;
     cloud_result := λ _, CloudReturns {[ "secure_url" := "https://media.example/stories/clip.mp4" ]} |}.

(** The local save is refused without writing; the remote host accepts. *)
Definition env_save_denied : env :=
  {| now := "2024-05-01 12:00:00";
     csv_write_error := None;
     csv_read_error := None;
     post_result := PostReturns 200;
     save_result := SaveFails (Exception "Permission denied") None;
     cloud_result := λ _, CloudReturns {[ "secure_url" := "https://media.example/stories/clip.mp4" ]} |}.

Definition clip : file_storage :=
  {| filename := "My Clip.MP4"; stream := [Byte.x00; Byte.x01; Byte.x02] |}.

Definition notes : file_storage :=
  {| filename := "notes.txt"; stream := [Byte.x68; Byte.x69] |}.

Definition request_with_file (file : file_storage) (uploader : option string)
    : request :=
  {| remote_addr := Some "203.0.113.7";
     get_json := None;
     form := match uploader with Some u => {[ "uploader" := u ]} | None => ∅ end;
     files := {[ "video" := file ]};
     url_origin := "http://stories.example" |}.

Definition upload_request : option string → request := request_with_file clip.

Definition password_request (password : string) : request :=
  {| remote_addr := Some "203.0.113.7";
     get_json := Some {[ "password" := password ]};
     form := ∅;
     files := ∅;
     url_origin := "http://stories.example" |}.

Definition story (kind url : string) : event_record :=
  {| timestamp := "2024-05-01 12:00:00"; source_ip := "203.0.113.7";
     event_kind := kind; credential := ""; chat_text := ""; story_url := url |}.

Definition abc_records : list event_record :=
  [story "admin_story_upload" "A"; story "user_story_upload" "B";
   story "admin_story_upload" "C"].

(** The world after the module is imported on a machine without a log. *)
Definition started_world : world := (startup offline_env fresh_world).2.

(** A world in which an older file already has the name of the upload. *)
Definition world_with_older_copy : world :=
  set_uploads {[ "/srv/app/static/uploads/My_Clip.MP4" := [Byte.xff] ]} started_world.

(** The world after one user story has been logged. *)
Definition user_only_world : world :=
  (append_all sample_cfg [story "user_story_upload" "B"] offline_env started_world).2.

(** The world after the three appends A, B, C. *)
Definition abc_world : world :=
  (append_all sample_cfg abc_records offline_env started_world).2.

(** ** Further vocabulary: the webhook, the console, and sample inputs *)

(** The posts made to the webhook, each with its URL and JSON payload, and
    the lines printed on the operator's console, in a journal. *)
Definition http_payloads (j : list io_event) : list (string * list (string * string)) :=
  omap (λ ev, match ev with IoHttpPost u p => Some (u, p) | _ => None end) j.

Definition prints (j : list io_event) : list string :=
  omap (λ ev, match ev with IoPrint m => Some m | _ => None end) j.

(** The request with another form. *)
Definition with_form (f : gmap string string) (req : request) : request :=
  {| remote_addr := remote_addr req; get_json := get_json req; form := f;
     files := files req; url_origin := url_origin req |}.

(** The five event kinds the handlers log. *)
Definition event_kinds : list string :=
  ["password_attempt"; "password_attempt_failed"; "admin_story_upload";
   "user_story_upload"; "chat_message"].

(** The shape of a row as a handler logs it: six fields, a non-empty
    address, one of the five kinds, and no optional field filled in but the
    one that goes with the kind. *)
Definition handler_row (row : list string) : Prop :=
  ∃ ts ip kind pw chat url,
    row = [ts; ip; kind; pw; chat; url]
    ∧ ip ≠ ""
    ∧ ((kind ∈ ["password_attempt"; "password_attempt_failed"] ∧ chat = "" ∧ url = "")
       ∨ (kind = "chat_message" ∧ pw = "" ∧ url = "")
       ∨ (kind ∈ ["admin_story_upload"; "user_story_upload"] ∧ pw = "" ∧ chat = "")).

(** A data row has the queried kind in its third field and a non-empty
    sixth field. *)
Definition positional_match (kind : string) (row : list string) : Prop :=
  row !! 2%nat = Some kind ∧ ∃ url, row !! 5%nat = Some url ∧ url ≠ "".

Definition webhook_cfg : config :=
  with_script_url "https://script.example/exec" sample_cfg.

(** Nothing can be written to the log, and the webhook answers 500. *)
Definition env_log_readonly : env :=
  {| now := "2024-05-01 12:00:00";
     csv_write_error := Some (Exception "Permission denied");
     csv_read_error := None;
     post_result := PostReturns 500;
     save_result := SaveOk;
     cloud_result := λ _, CloudRaises (Exception "network unreachable") |}.

(** The remote host accepts the upload. *)
Definition env_online : env :=
  {| now := "2024-05-01 12:00:00";
     csv_write_error := None;
     csv_read_error := None;
     post_result := PostReturns 200;
     save_result := SaveOk;
     cloud_result := λ _, CloudReturns {[ "secure_url" := "https://media.example/stories/clip.mp4" ]} |}.

Definition chat_request (text : option string) : request :=
  {| remote_addr := None;
     get_json := (λ t, {[ "chat" := t ]}) <$> text;
     form := ∅;
     files := ∅;
     url_origin := "http://stories.example" |}.

(** Another upload whose name is sanitized to the name of [clip]. *)
Definition clip_again : file_storage :=
  {| filename := "My_Clip.MP4"; stream := [Byte.x07] |}.

(** A log file that exists and is empty. *)
Definition empty_log_world : world :=
  {| log_file := Some []; uploads := ∅; journal := [] |}.

(** A log whose header has no [event] column. *)
Definition renamed_header_world : world :=
  {| log_file := Some [["timestamp"; "ip"; "kind"; "password"; "chat"; "story_url"];
                       ["2024-05-01 12:00:00"; "203.0.113.7"; "admin_story_upload";
                        ""; ""; "A"]];
     uploads := ∅; journal := [] |}.

(** A log with a short row and a row with a seventh field after a story. *)
Definition ragged_world : world :=
  {| log_file := Some [header;
                       ["2024-05-01 12:00:00"; "203.0.113.7"; "admin_story_upload";
                        ""; ""; "A"; "extra"];
                       [];
                       ["2024-05-01 12:00:01"; "203.0.113.7"; "admin_story_upload"]];
     uploads := ∅; journal := [] |}.

(** A run that leaves the media store alone: the upload directory is as it
    was, and neither a save nor a remote upload was attempted. *)
Definition media_untouched (w w' : world) : Prop :=
  uploads w' = uploads w
  ∧ file_saves (journal w') = file_saves (journal w)
  ∧ remote_uploads (journal w') = remote_uploads (journal w).

(** A run that leaves the event log alone: the file is as it was, and
    neither an append nor a webhook post was attempted. *)
Definition log_untouched (w w' : world) : Prop :=
  log_file w' = log_file w
  ∧ csv_appends (journal w') = csv_appends (journal w)
  ∧ http_payloads (journal w') = http_payloads (journal w).

(** The log of [w'] is [rows] followed by at most one more row. *)
Definition extends_log (rows : list (list string)) (w' : world) : Prop :=
  ∃ extra, log_file w' = Some (rows ++ extra)%list ∧ (length extra ≤ 1)%nat.

(** What the query for [kind] finds in the world. *)
Definition query_answer (kind : string) (e : env) (w : world) : string :=
  match log_file w, csv_read_error e with
  | Some rows, None => scan_rows kind (reverse (DictReader rows)) ""
  | _, _ => ""
  end.

(** One request served: the world before and after a handler has run, for
    any request and any environment. *)
Inductive served (cfg : config) : world → world → Prop :=
| served_save_password req e w : served cfg w (save_password cfg req e w).2
| served_log_chat req e w : served cfg w (log_chat cfg req e w).2
| served_upload req e w : served cfg w (upload_story_video cfg req e w).2
| served_last_admin_story e w : served cfg w (last_admin_story e w).2
| served_last_user_story e w : served cfg w (last_user_story e w).2
| served_uploaded_file name e w : served cfg w (uploaded_file cfg name e w).2.

(** The worlds the application can be in: it is started where there is no
    log, or a log in the persisted format, and then serves requests. *)
Inductive running (cfg : config) : world → Prop :=
| running_fresh e w :
    log_file w = None → csv_write_error e = None → running cfg (startup e w).2
| running_restart e w :
    well_formed_log w → running cfg (startup e w).2
| running_served w w' :
    running cfg w → served cfg w w' → running cfg w'.

(** ** Running the monad *)

Ltac unfold_io :=
  unfold log_event, csv_append, csv_create, requests_post, file_save, open_rb,
    upload_large, csv_read_dicts, print, bind, ret, raise, try_except, ask,
    gets, modify in *.

Ltac unfold_steps :=
  unfold csv_append, csv_create, requests_post, file_save, open_rb,
    upload_large, csv_read_dicts, print, bind, ret, raise, try_except, ask,
    gets, modify in *.

Lemma csv_appends_app j1 j2 : csv_appends (j1 ++ j2) = (csv_appends j1 ++ csv_appends j2)%list.
Proof. apply omap_app. Qed.

Lemma file_saves_app j1 j2 : file_saves (j1 ++ j2) = (file_saves j1 ++ file_saves j2)%list.
Proof. apply omap_app. Qed.

Lemma remote_uploads_app j1 j2 :
  remote_uploads (j1 ++ j2) = (remote_uploads j1 ++ remote_uploads j2)%list.
Proof. apply omap_app. Qed.

Lemma http_posts_app j1 j2 : http_posts (j1 ++ j2) = (http_posts j1 ++ http_posts j2)%list.
Proof. apply omap_app. Qed.

Ltac simpl_journal :=
  cbn [journal log_file uploads record_io set_log set_uploads] in *;
  repeat rewrite ?csv_appends_app, ?file_saves_app, ?remote_uploads_app,
    ?http_posts_app, ?app_nil_r in *;
  cbn [csv_appends file_saves remote_uploads http_posts omap list_omap] in *;
  repeat rewrite ?app_nil_r in *.

(** What one call of [log_event] does, whatever the environment answers. *)
Lemma log_event_run cfg ip event password chat story_url e w :
  let row := [now e; ip; event; default "" password; default "" chat;
              default "" story_url] in
  ∃ w', log_event cfg ip event password chat story_url e w = (Ok tt, w')
    ∧ uploads w' = uploads w
    ∧ log_file w' = match csv_write_error e with
                    | None => Some (default [] (log_file w) ++ [row])%list
                    | Some _ => log_file w
                    end
    ∧ csv_appends (journal w') = (csv_appends (journal w) ++ [row])%list
    ∧ file_saves (journal w') = file_saves (journal w)
    ∧ remote_uploads (journal w') = remote_uploads (journal w).
Proof.
  intros row. unfold_io.
  destruct (csv_write_error e) as [x|] eqn:Hw;
    destruct (truthy (GOOGLE_SCRIPT_URL cfg));
    destruct (post_result e) as [y|st];
    eexists; (split; [reflexivity|]); simpl_journal; auto.
Qed.

(** The webhook is called once when a URL is configured, and not at all
    otherwise. *)
Lemma log_event_posts cfg ip event password chat story_url e w :
  http_posts (journal (log_event cfg ip event password chat story_url e w).2)
  = (http_posts (journal w)
     ++ (if truthy (GOOGLE_SCRIPT_URL cfg) then [GOOGLE_SCRIPT_URL cfg] else []))%list.
Proof.
  unfold_io.
  destruct (csv_write_error e); destruct (truthy (GOOGLE_SCRIPT_URL cfg));
    destruct (post_result e); cbn [snd]; simpl_journal;
    by rewrite <- ?app_assoc.
Qed.

Lemma upload_kind_form req :
  (if bool_decide (default "user" (form req !! "uploader") = "admin")
   then "admin_story_upload" else "user_story_upload") = upload_kind req.
Proof.
  unfold upload_kind. destruct (form req !! "uploader") as [u|]; cbn.
  - repeat case_bool_decide; congruence.
  - repeat case_bool_decide; congruence.
Qed.

(** What [upload_story_video] does with a request that passes its checks,
    whatever the environment answers. *)
Lemma upload_run cfg req file e w :
  validated req file →
  let local_path := path_join (STORY_FOLDER cfg) (secure_filename (filename file)) in
  let disk := disk_after_save e local_path (stream file) (uploads w) in
  let row := [now e; client_ip req; upload_kind req; ""; "";
              resolved_url cfg req file e disk] in
  ∃ w', upload_story_video cfg req e w = (Ok (Redirect "/main"), w')
    ∧ uploads w' = disk
    ∧ log_file w' = match csv_write_error e with
                    | None => Some (default [] (log_file w) ++ [row])%list
                    | Some _ => log_file w
                    end
    ∧ csv_appends (journal w') = (csv_appends (journal w) ++ [row])%list
    ∧ file_saves (journal w') = (file_saves (journal w) ++ [local_path])%list
    ∧ remote_uploads (journal w')
      = (remote_uploads (journal w) ++ option_list (disk !! local_path))%list.
Proof.
  intros (Hfile & Hname & Hext) local_path disk row.
  unfold upload_story_video. rewrite Hfile.
  rewrite bool_decide_eq_false_2 by exact Hname.
  rewrite Hext. cbn [negb]. rewrite upload_kind_form.
  fold local_path. unfold_steps.
  subst row. unfold resolved_url. fold local_path. subst disk.
  unfold disk_after_save.
  destruct (save_result e) as [|x [part|]]; cbn [uploads record_io set_uploads];
    match goal with
    | |- context [ ?m !! local_path ] =>
        destruct (m !! local_path) as [data|] eqn:Hdisk
    end;
    try destruct (cloud_result e data) as [y|r] eqn:Hcloud;
    edestruct log_event_run as (w' & Hrun & Hu & Hl & Hc & Hs & Hr);
    rewrite Hrun; cbn [default] in *; simpl_journal;
    exists w'; rewrite ?Hcloud; auto 10.
Qed.

Lemma append_nonempty (a b : string) : b ≠ "" → a ++ b ≠ "".
Proof. destruct a; cbn; [auto | discriminate]. Qed.

Lemma fallback_url_nonempty req fname :
  url_for req (ep_uploaded_file fname) true ≠ "".
Proof. unfold url_for, url_rule. apply append_nonempty. discriminate. Qed.

(** ** File names *)

Lemma rsplit_point_none c s : rsplit_point c s = None ↔ str_contains c s = false.
Proof.
  induction s as [|a rest IH]; cbn; [done|].
  destruct (rsplit_point c rest) as [[before after]|].
  - destruct (Ascii.eqb a c); [done|]. split; [done|]. intros H.
    apply IH in H. done.
  - destruct (Ascii.eqb a c); [done|]. split; [|done]. intros _. by apply IH.
Qed.

Lemma append_cons x a s : String x a ++ s = String x (a ++ s).
Proof. reflexivity. Qed.

Lemma append_empty s : "" ++ s = s.
Proof. reflexivity. Qed.

Lemma str_contains_middle c a b : str_contains c (a ++ String c b) = true.
Proof.
  induction a as [|x a IH]; rewrite ?append_empty, ?append_cons;
    cbn [str_contains].
  - by rewrite Ascii.eqb_refl.
  - by destruct (Ascii.eqb x c).
Qed.

Lemma rsplit_point_some c s a b :
  rsplit_point c s = Some (a, b) ↔ s = a ++ String c b ∧ str_contains c b = false.
Proof.
  split.
  - revert a. induction s as [|x rest IH]; intros a; cbn; [done|].
    destruct (rsplit_point c rest) as [[before after]|] eqn:Hrest.
    + intros [= <- <-]. destruct (IH before eq_refl) as [-> Hb]. done.
    + destruct (Ascii.eqb_spec x c) as [->|]; [|done].
      intros [= <- <-]. split; [done|]. by apply rsplit_point_none.
  - intros [-> Hb]. induction a as [|x a IH];
      rewrite ?append_empty, ?append_cons; cbn [rsplit_point].
    + apply rsplit_point_none in Hb. by rewrite Hb, Ascii.eqb_refl.
    + by rewrite IH.
Qed.

(** [allowed_file] accepts exactly the file names with an extension of the
    allow-list. *)
Lemma allowed_file_iff filename :
  allowed_file filename = true ↔ has_allowed_extension filename.
Proof.
  unfold allowed_file, has_allowed_extension, rsplit1. split.
  - intros [Hdot Hext]%andb_prop.
    destruct (rsplit_point "." filename) as [[stem ext]|] eqn:Hsplit; [|done].
    apply rsplit_point_some in Hsplit as [-> Hno]. cbn in Hext.
    apply bool_decide_eq_true in Hext. by exists stem, ext.
  - intros (stem & ext & -> & Hno & Hin).
    change (stem ++ "." ++ ext) with (stem ++ String "." ext).
    rewrite str_contains_middle.
    rewrite (proj2 (rsplit_point_some "." _ stem ext)) by done.
    cbn. by apply bool_decide_eq_true.
Qed.

(** ** The upload pipeline *)

(** C3: an upload request with no [video] file field, with an empty file
    name, or with a file name whose extension is not in the allow-list is
    answered with status 400, and the world is left exactly as it was:
    nothing is appended to the event log, no file is saved, no remote upload
    is attempted (the journal of operations is unchanged too). *)
Theorem upload_rejected_without_side_effects cfg req e w :
  (files req !! "video" = None
   ∨ ∃ file, files req !! "video" = Some file
             ∧ (filename file = "" ∨ ¬ has_allowed_extension (filename file))) →
  ∃ body, upload_story_video cfg req e w = (Ok (Text body 400), w)
          ∧ status_code (Text body 400) = 400.
Proof.
  intros [Hnone | (file & Hfile & [Hname | Hext])]; unfold upload_story_video.
  - rewrite Hnone. by eexists.
  - rewrite Hfile, Hname. by eexists.
  - rewrite Hfile.
    assert (allowed_file (filename file) = false) as ->.
    { destruct (allowed_file (filename file)) eqn:Ha; [|done].
      by apply allowed_file_iff in Ha. }
    case_bool_decide; by eexists.
Qed.

(** C9: for a validated upload the one row handed to the log has the event
    kind [admin_story_upload] exactly when the form field [uploader] is
    present and equal to ["admin"]; with any other value, or without the
    field, the kind is [user_story_upload]. *)
Theorem upload_logs_actor_kind cfg req file e w :
  validated req file →
  (∃ ts ip url,
     csv_appends (journal (upload_story_video cfg req e w).2)
     = (csv_appends (journal w) ++ [[ts; ip; upload_kind req; ""; ""; url]])%list)
  ∧ (upload_kind req = "admin_story_upload" ↔ form req !! "uploader" = Some "admin")
  ∧ (upload_kind req = "user_story_upload" ↔ form req !! "uploader" ≠ Some "admin").
Proof.
  intros Hv. split.
  - destruct (upload_run cfg req file e w Hv) as (w' & Hrun & _ & _ & Hc & _).
    rewrite Hrun. cbn [snd]. rewrite Hc. eauto.
  - unfold upload_kind. case_bool_decide; split; split; intros; done.
Qed.

(** C2 (amended): a validated upload is answered with the redirect to the
    dashboard and hands exactly one row to the event log, which is in the
    file when the write succeeds; the row has the event kind of the actor
    class; its story_url is empty exactly when the remote host returned a
    result whose [secure_url] is missing or empty, and non-empty otherwise. *)
Theorem upload_appends_one_record cfg req file e w :
  validated req file →
  ∃ url,
    let row := [now e; client_ip req; upload_kind req; ""; ""; url] in
    let run := upload_story_video cfg req e w in
    run.1 = Ok (Redirect "/main")
    ∧ csv_appends (journal run.2) = (csv_appends (journal w) ++ [row])%list
    ∧ log_file run.2 = match csv_write_error e with
                       | None => Some (default [] (log_file w) ++ [row])%list
                       | Some _ => log_file w
                       end
    ∧ (url = ""
       ↔ ∃ data r,
           remote_uploads (journal run.2) = (remote_uploads (journal w) ++ [data])%list
           ∧ cloud_result e data = CloudReturns r
           ∧ default "" (r !! "secure_url") = "").
Proof.
  intros Hv.
  destruct (upload_run cfg req file e w Hv) as (w' & Hrun & Hu & Hl & Hc & _ & Hr).
  eexists. cbn zeta. rewrite Hrun. cbn [fst snd].
  split; [done|]. split; [exact Hc|]. split; [exact Hl|].
  rewrite Hr. unfold resolved_url.
  destruct (disk_after_save _ _ _ _ !! _) as [data|]; cbn [option_list].
  - destruct (cloud_result e data) as [y|r] eqn:Hcloud.
    + split.
      * intros Hurl. by apply fallback_url_nonempty in Hurl.
      * intros (d & r & [= <-]%app_inv_head & Hd & _). congruence.
    + split.
      * intros Hurl. by exists data, r.
      * intros (d & r' & [= <-]%app_inv_head & Hd & Hempty). congruence.
  - split.
    + intros Hurl. by apply fallback_url_nonempty in Hurl.
    + intros (d & r & Habs%app_inv_head & _). discriminate Habs.
Qed.

(** C4: on a validated upload whose remote upload is attempted and raises,
    the exception does not reach the caller (the answer is the redirect to
    the dashboard); the URL that is logged is the non-empty URL of the local
    file-serving route [/uploads/<filename>] for the sanitized name; and a
    file exists under that name in the upload directory, holding the bytes
    that were offered to the remote host (the uploaded stream when the local
    save succeeded), which the route serves when [safe_join] accepts the
    name. *)
Theorem upload_remote_failure_falls_back cfg req file e w data x :
  validated req file →
  let run := upload_story_video cfg req e w in
  let fname := secure_filename (filename file) in
  let local_path := path_join (STORY_FOLDER cfg) fname in
  let url := url_origin req ++ "/uploads/" ++ url_quote fname in
  remote_uploads (journal run.2) = (remote_uploads (journal w) ++ [data])%list →
  cloud_result e data = CloudRaises x →
  run.1 = Ok (Redirect "/main")
  ∧ csv_appends (journal run.2)
    = (csv_appends (journal w) ++ [[now e; client_ip req; upload_kind req; ""; ""; url]])%list
  ∧ url ≠ ""
  ∧ url = url_for req (ep_uploaded_file fname) true
  ∧ uploads run.2 !! local_path = Some data
  ∧ (save_result e = SaveOk → data = stream file)
  ∧ (safe_join (STORY_FOLDER cfg) fname = Some local_path →
     ∀ e', uploaded_file cfg fname e' run.2 = (Ok (SendFile data), run.2)).
Proof.
  intros Hv run fname local_path url. subst run fname local_path url.
  destruct (upload_run cfg req file e w Hv) as (w' & Hrun & Hu & Hl & Hc & _ & Hr).
  rewrite Hrun. cbn [fst snd]. rewrite Hr, Hc. intros Hatt Hcloud.
  apply app_inv_head in Hatt. unfold resolved_url.
  destruct (disk_after_save _ _ _ _ !! _) as [d|] eqn:Hdisk; [|discriminate].
  cbn in Hatt. injection Hatt as ->. rewrite Hcloud.
  repeat split; try done.
  - apply fallback_url_nonempty.
  - by rewrite Hu.
  - intros Hs. unfold disk_after_save in Hdisk. rewrite Hs in Hdisk.
    rewrite lookup_insert_eq in Hdisk. congruence.
  - intros Hjoin e'. unfold uploaded_file. rewrite Hjoin. unfold_steps.
    by rewrite Hu, Hdisk.
Qed.

(** C10: a validated upload offers to the remote host the bytes it reads
    back from the local path, so the remote upload is attempted exactly when
    a file is at that path once the save has run.  Hence, when the save
    fails without writing and no file was there, no remote upload is
    performed, the logged URL is the local fallback URL, and still no file
    is at the local path. *)
Theorem upload_reads_local_copy cfg req file e w :
  validated req file →
  let run := upload_story_video cfg req e w in
  let fname := secure_filename (filename file) in
  let local_path := path_join (STORY_FOLDER cfg) fname in
  remote_uploads (journal run.2)
  = (remote_uploads (journal w) ++ option_list (uploads run.2 !! local_path))%list
  ∧ (∀ x, save_result e = SaveFails x None → uploads w !! local_path = None →
       run.1 = Ok (Redirect "/main")
       ∧ remote_uploads (journal run.2) = remote_uploads (journal w)
       ∧ csv_appends (journal run.2)
         = (csv_appends (journal w)
            ++ [[now e; client_ip req; upload_kind req; ""; "";
                 url_for req (ep_uploaded_file fname) true]])%list
       ∧ uploads run.2 !! local_path = None).
Proof.
  intros Hv run fname local_path. subst run.
  destruct (upload_run cfg req file e w Hv) as (w' & Hrun & Hu & Hl & Hc & _ & Hr).
  rewrite Hrun. cbn [fst snd]. rewrite Hr, Hc, Hu. fold fname local_path.
  split; [done|]. intros x Hs Hno.
  unfold resolved_url, disk_after_save. fold fname local_path.
  rewrite Hs, Hno. cbn [option_list]. by rewrite app_nil_r.
Qed.

(** ** The event log: queries *)

Lemma truthy_nonempty s : truthy s = true ↔ s ≠ "".
Proof. destruct s; cbn; split; intros; done. Qed.

Lemma record_dict_event r :
  dict_get (zip_dict header (record_row r) ∅) "event" = Some (event_kind r).
Proof. reflexivity. Qed.

Lemma record_dict_story_url r :
  dict_get (zip_dict header (record_row r) ∅) "story_url" = Some (story_url r).
Proof. reflexivity. Qed.

Lemma record_dict_matches kind r :
  row_matches kind (zip_dict header (record_row r) ∅) ↔ is_story kind r.
Proof.
  unfold row_matches, is_story.
  rewrite record_dict_event, record_dict_story_url. cbn.
  split; intros [H1 H2]; split; congruence.
Qed.

Lemma filter_record_rows (records : list event_record) :
  filter (λ r : list string, r ≠ []) (record_row <$> records) = record_row <$> records.
Proof.
  induction records as [|r rs IH]; [done|].
  rewrite fmap_cons, filter_cons_True by done. by rewrite IH.
Qed.

Lemma DictReader_records (records : list event_record) :
  DictReader (header :: (record_row <$> records))
  = (λ r, zip_dict header (record_row r) ∅) <$> records.
Proof.
  unfold DictReader. rewrite filter_record_rows.
  by rewrite <- list_fmap_compose.
Qed.

Lemma scan_rows_skip kind l1 l2 url :
  Forall (λ d, ¬ row_matches kind d) l1 →
  scan_rows kind (l1 ++ l2) url = scan_rows kind l2 url.
Proof.
  induction 1 as [|d l1 Hd _ IH]; [done|]. cbn.
  destruct (bool_decide _) eqn:Hb; cbn; [|done].
  destruct (truthy _) eqn:Ht; [|done].
  exfalso. apply Hd. split; [by apply bool_decide_eq_true in Hb|].
  by apply truthy_nonempty.
Qed.

Lemma scan_rows_hit kind d rest url :
  row_matches kind d →
  scan_rows kind (d :: rest) url = default "" (dict_get d "story_url").
Proof.
  intros [He Hu]. cbn. rewrite bool_decide_eq_true_2 by done.
  apply truthy_nonempty in Hu. by rewrite Hu.
Qed.

Lemma find_latest_read kind failure e w rows :
  log_file w = Some rows → csv_read_error e = None →
  find_latest kind failure e w
  = (Ok (scan_rows kind (reverse (DictReader rows)) ""), w).
Proof.
  intros Hl Hr. unfold find_latest. unfold_steps. by rewrite Hr, Hl.
Qed.

(** On any readable log, whatever its first row is: the answer is the
    story_url field of the last parsed row that passes the test. *)
Lemma find_latest_last_match kind failure rows before d after e w :
  log_file w = Some rows → csv_read_error e = None →
  DictReader rows = (before ++ d :: after)%list →
  row_matches kind d →
  Forall (λ d', ¬ row_matches kind d') after →
  find_latest kind failure e w = (Ok (default "" (dict_get d "story_url")), w).
Proof.
  intros Hl Hr Hrows Hd Hafter.
  rewrite (find_latest_read _ _ _ _ _ Hl Hr), Hrows. do 2 f_equal.
  rewrite reverse_app, reverse_cons, <- app_assoc.
  rewrite scan_rows_skip by by apply Forall_reverse.
  cbn [app]. by apply scan_rows_hit.
Qed.

(** C1: on a log made of the header and the appended records, that can be
    read, [find_latest kind] returns the story_url of the most recently
    appended record of that kind with a non-empty story_url, whatever the
    records before it are; the two query handlers answer with that URL. *)
Theorem find_latest_most_recent kind failure records before r after e w :
  log_file w = Some (header :: (record_row <$> records)) →
  csv_read_error e = None →
  records = (before ++ r :: after)%list →
  is_story kind r →
  Forall (λ r', ¬ is_story kind r') after →
  find_latest kind failure e w = (Ok (story_url r), w)
  ∧ (kind = "admin_story_upload" →
     last_admin_story e w = (Ok (Json [("url", story_url r)]), w))
  ∧ (kind = "user_story_upload" →
     last_user_story e w = (Ok (Json [("url", story_url r)]), w)).
Proof.
  intros Hl Hr -> Hstory Hafter.
  assert (Hfind : ∀ f, find_latest kind f e w = (Ok (story_url r), w)).
  { intros f. rewrite (find_latest_read _ _ _ _ _ Hl Hr). do 2 f_equal.
    rewrite DictReader_records, fmap_app, fmap_cons, reverse_app, reverse_cons.
    rewrite <- app_assoc, scan_rows_skip.
    - cbn [app]. rewrite scan_rows_hit by by apply record_dict_matches.
      by rewrite record_dict_story_url.
    - apply Forall_reverse, Forall_fmap. eapply Forall_impl; [exact Hafter|].
      intros r' Hn Hm. by apply Hn, record_dict_matches. }
  split; [apply Hfind|].
  split; intros ->; unfold last_admin_story, last_user_story, bind, ret;
    by rewrite Hfind.
Qed.

(** C6: when the log file does not exist, cannot be read, is empty, or
    holds no row of the queried kind with a non-empty story_url,
    [find_latest] returns the empty string and raises nothing; the log and
    the upload directory are untouched, and the two query handlers answer
    [{url: ""}] with status 200. *)
Theorem find_latest_without_story kind failure e w :
  (log_file w = None
   ∨ csv_read_error e ≠ None
   ∨ log_file w = Some []
   ∨ ∃ rows, log_file w = Some rows
             ∧ Forall (λ d, ¬ row_matches kind d) (DictReader rows)) →
  (∃ w', find_latest kind failure e w = (Ok "", w')
         ∧ log_file w' = log_file w ∧ uploads w' = uploads w)
  ∧ (kind = "admin_story_upload" →
     (last_admin_story e w).1 = Ok (Json [("url", "")]))
  ∧ (kind = "user_story_upload" →
     (last_user_story e w).1 = Ok (Json [("url", "")]))
  ∧ status_code (Json [("url", "")]) = 200.
Proof.
  intros Hcase.
  assert (Hfind : ∀ f, ∃ w', find_latest kind f e w = (Ok "", w')
                             ∧ log_file w' = log_file w ∧ uploads w' = uploads w).
  { intros f. unfold find_latest. unfold_steps.
    destruct Hcase as [Hn | [Hr | [He | (rows & Hl & Hno)]]].
    - rewrite Hn. destruct (csv_read_error e); by eexists.
    - destruct (csv_read_error e) as [x|]; [|done].
      destruct (log_file w) eqn:Hl; eexists; (split; [reflexivity|]); by cbn.
    - rewrite He. destruct (csv_read_error e); by eexists.
    - rewrite Hl. destruct (csv_read_error e); [by eexists|].
      exists w. split; [|done]. do 2 f_equal.
      rewrite <- (app_nil_r (reverse _)). rewrite scan_rows_skip; [done|].
      by apply Forall_reverse. }
  split; [apply Hfind|].
  split; [|split; [|done]]; intros ->;
    unfold last_admin_story, last_user_story, bind, ret;
    edestruct Hfind as (w' & -> & _); done.
Qed.

(** ** The gate, the chat and the append *)

Lemma save_password_run cfg req e w :
  let ok := bool_decide (submitted_password req = ADMIN_PASSWORD cfg) in
  let row := [now e; client_ip req;
              if ok then "password_attempt" else "password_attempt_failed";
              submitted_password req; ""; ""] in
  ∃ w', save_password cfg req e w
        = (Ok (if ok then Json [("redirect", "/main")]
               else Json [("message", "Wrong password ❌")]), w')
    ∧ uploads w' = uploads w
    ∧ log_file w' = log_after e row w
    ∧ csv_appends (journal w') = (csv_appends (journal w) ++ [row])%list.
Proof.
  intros ok row. subst ok row. unfold save_password, log_after.
  fold (submitted_password req). unfold bind, ret.
  case_bool_decide;
    edestruct log_event_run as (w' & Hrun & Hu & Hl & Hc & _);
    rewrite Hrun; exists w'; cbn [default] in *; auto.
Qed.

Lemma log_chat_run cfg req e w :
  let row := [now e; client_ip req; "chat_message"; "";
              default "" (default ∅ (get_json req) !! "chat"); ""] in
  ∃ w', log_chat cfg req e w = (Ok (Json [("status", "ok")]), w')
    ∧ uploads w' = uploads w
    ∧ log_file w' = log_after e row w
    ∧ csv_appends (journal w') = (csv_appends (journal w) ++ [row])%list.
Proof.
  intros row. subst row. unfold log_chat, log_after. unfold bind, ret.
  edestruct log_event_run as (w' & Hrun & Hu & Hl & Hc & _).
  rewrite Hrun. exists w'. cbn [default] in *. auto.
Qed.

(** A request is either refused by the checks of [upload_story_video], in
    the same way in every environment, or validated. *)
Lemma upload_cases req :
  (∃ body, ∀ cfg e w, upload_story_video cfg req e w = (Ok (Text body 400), w))
  ∨ (∃ file, validated req file).
Proof.
  destruct (files req !! "video") as [file|] eqn:Hfile.
  - destruct (decide (filename file = "")) as [Hname|Hname].
    + left. eexists. intros. unfold upload_story_video.
      by rewrite Hfile, Hname.
    + destruct (allowed_file (filename file)) eqn:Hext.
      * right. by exists file.
      * left. eexists. intros. unfold upload_story_video.
        rewrite Hfile, Hext. by rewrite bool_decide_eq_false_2.
  - left. eexists. intros. unfold upload_story_video. by rewrite Hfile.
Qed.

(** Two runs of a handler on the same request and world agree on the
    response and on the upload directory as soon as the environments agree
    on what the handler asks them; they agree on the log too when the two
    writes to it have the same fate. *)
Lemma log_event_agree cfg cfg' ip event password chat story_url e e' w :
  now e = now e' →
  let a := log_event cfg ip event password chat story_url e w in
  let b := log_event cfg' ip event password chat story_url e' w in
  a.1 = Ok tt ∧ b.1 = Ok tt ∧ uploads a.2 = uploads b.2
  ∧ (csv_write_error e = csv_write_error e' → log_file a.2 = log_file b.2).
Proof.
  intros Hnow a b. subst a b.
  destruct (log_event_run cfg ip event password chat story_url e w)
    as (w1 & -> & Hu1 & Hl1 & _).
  destruct (log_event_run cfg' ip event password chat story_url e' w)
    as (w2 & -> & Hu2 & Hl2 & _).
  cbn [fst snd]. rewrite Hu1, Hu2, Hl1, Hl2, Hnow.
  repeat split. by intros ->.
Qed.

Lemma save_password_agree cfg cfg' req e e' w :
  ADMIN_PASSWORD cfg = ADMIN_PASSWORD cfg' → now e = now e' →
  let a := save_password cfg req e w in
  let b := save_password cfg' req e' w in
  (∃ resp, a.1 = Ok resp ∧ b.1 = Ok resp) ∧ uploads a.2 = uploads b.2
  ∧ (csv_write_error e = csv_write_error e' → log_file a.2 = log_file b.2).
Proof.
  intros Hpw Hnow a b. subst a b.
  destruct (save_password_run cfg req e w) as (w1 & -> & Hu1 & Hl1 & _).
  destruct (save_password_run cfg' req e' w) as (w2 & -> & Hu2 & Hl2 & _).
  cbn [fst snd]. rewrite Hu1, Hu2, Hl1, Hl2, Hpw, Hnow. unfold log_after.
  split; [eauto|]. split; [done|]. by intros ->.
Qed.

Lemma log_chat_agree cfg cfg' req e e' w :
  now e = now e' →
  let a := log_chat cfg req e w in
  let b := log_chat cfg' req e' w in
  (∃ resp, a.1 = Ok resp ∧ b.1 = Ok resp) ∧ uploads a.2 = uploads b.2
  ∧ (csv_write_error e = csv_write_error e' → log_file a.2 = log_file b.2).
Proof.
  intros Hnow a b. subst a b.
  destruct (log_chat_run cfg req e w) as (w1 & -> & Hu1 & Hl1 & _).
  destruct (log_chat_run cfg' req e' w) as (w2 & -> & Hu2 & Hl2 & _).
  cbn [fst snd]. rewrite Hu1, Hu2, Hl1, Hl2, Hnow. unfold log_after.
  split; [eauto|]. split; [done|]. by intros ->.
Qed.

Lemma upload_agree cfg cfg' req e e' w :
  root_path cfg = root_path cfg' → now e = now e' →
  save_result e = save_result e' → cloud_result e = cloud_result e' →
  let a := upload_story_video cfg req e w in
  let b := upload_story_video cfg' req e' w in
  (∃ resp, a.1 = Ok resp ∧ b.1 = Ok resp) ∧ uploads a.2 = uploads b.2
  ∧ (csv_write_error e = csv_write_error e' → log_file a.2 = log_file b.2).
Proof.
  intros Hroot Hnow Hsave Hcloud a b. subst a b.
  destruct (upload_cases req) as [(body & Hrej) | (file & Hv)].
  - rewrite !Hrej. cbn [fst snd]. eauto.
  - destruct (upload_run cfg req file e w Hv) as (w1 & -> & Hu1 & Hl1 & _).
    destruct (upload_run cfg' req file e' w Hv) as (w2 & -> & Hu2 & Hl2 & _).
    cbn [fst snd]. rewrite Hu1, Hu2, Hl1, Hl2.
    unfold resolved_url, disk_after_save, STORY_FOLDER.
    rewrite Hroot, Hnow, Hsave, Hcloud.
    split; [eauto|]. split; [done|]. by intros ->.
Qed.

(** C5: the gate accepts exactly the configured secret, ["mrshaik"] when
    none is configured.  On a match it answers [{redirect: "/main"}] and
    hands one [password_attempt] row carrying the submitted credential to
    the event log; on anything else it answers with the message and hands
    one [password_attempt_failed] row to the log.  In both cases the row
    reaches the file when the write succeeds. *)
Theorem gate_accepts_exactly_the_secret cfg req e w :
  let password := submitted_password req in
  let run := save_password cfg req e w in
  let row kind := [now e; client_ip req; kind; password; ""; ""] in
  (password = ADMIN_PASSWORD cfg →
     run.1 = Ok (Json [("redirect", "/main")])
     ∧ csv_appends (journal run.2)
       = (csv_appends (journal w) ++ [row "password_attempt"])%list
     ∧ log_file run.2 = log_after e (row "password_attempt") w)
  ∧ (password ≠ ADMIN_PASSWORD cfg →
     run.1 = Ok (Json [("message", "Wrong password ❌")])
     ∧ csv_appends (journal run.2)
       = (csv_appends (journal w) ++ [row "password_attempt_failed"])%list
     ∧ log_file run.2 = log_after e (row "password_attempt_failed") w)
  ∧ (∀ root, ADMIN_PASSWORD (load_config root ∅) = "mrshaik").
Proof.
  intros password run row. subst password run row.
  destruct (save_password_run cfg req e w) as (w' & -> & _ & Hl & Hc).
  cbn [fst snd]. rewrite Hl, Hc.
  split; [|split; [|done]]; intros Hpw.
  - by rewrite bool_decide_eq_true_2.
  - by rewrite bool_decide_eq_false_2.
Qed.

(** C7: [log_event] hands exactly one row to the CSV writer, with the
    fields in the order timestamp, ip, event, password, chat, story_url (the
    order of the header, so that the row is read back with each value under
    its column) and the empty string for each argument left out.  When the
    write succeeds
    the log is the old log followed by that row; when it fails the log is
    unchanged, the failure is printed for the operator and [log_event]
    still returns normally.  Each caller of [log_event] then answers as it
    does when the write succeeds, and leaves the same upload directory. *)
Theorem log_event_appends_one_record cfg ip event pw ch url e w :
  let r := {| timestamp := now e; source_ip := ip; event_kind := event;
              credential := default "" pw; chat_text := default "" ch;
              story_url := default "" url |} in
  let run := log_event cfg ip event pw ch url e w in
  run.1 = Ok tt
  ∧ csv_appends (journal run.2) = (csv_appends (journal w) ++ [record_row r])%list
  ∧ dict_get (zip_dict header (record_row r) ∅) <$> header = Some <$> record_row r
  ∧ match csv_write_error e with
    | None => log_file run.2 = Some (default [] (log_file w) ++ [record_row r])%list
    | Some x =>
        log_file run.2 = log_file w
        ∧ IoPrint ("Failed to write to CSV log: " ++ exn_msg x) ∈ journal run.2
    end
  ∧ (∀ req x,
       let failing := with_csv_write_error (Some x) e in
       let working := with_csv_write_error None e in
       (∃ resp, (save_password cfg req failing w).1 = Ok resp
                ∧ (save_password cfg req working w).1 = Ok resp)
       ∧ (∃ resp, (log_chat cfg req failing w).1 = Ok resp
                  ∧ (log_chat cfg req working w).1 = Ok resp)
       ∧ (∃ resp, (upload_story_video cfg req failing w).1 = Ok resp
                  ∧ (upload_story_video cfg req working w).1 = Ok resp)
       ∧ uploads (upload_story_video cfg req failing w).2
         = uploads (upload_story_video cfg req working w).2).
Proof.
  intros r run. subst r run. cbn [record_row timestamp source_ip event_kind
    credential chat_text story_url].
  split; [|split; [|split; [|split]]].
  - by destruct (log_event_run cfg ip event pw ch url e w)
      as (w' & -> & _).
  - destruct (log_event_run cfg ip event pw ch url e w)
      as (w' & -> & _ & _ & Hc & _). exact Hc.
  - reflexivity.
  - unfold_io.
    destruct (csv_write_error e) as [x|]; destruct (truthy _);
      destruct (post_result e); cbn; try done;
      (split; [done|]); set_solver.
  - intros req x. split; [|split; [|split]].
    + exact (proj1 (save_password_agree cfg cfg req
                      (with_csv_write_error (Some x) e)
                      (with_csv_write_error None e) w eq_refl eq_refl)).
    + exact (proj1 (log_chat_agree cfg cfg req
                      (with_csv_write_error (Some x) e)
                      (with_csv_write_error None e) w eq_refl)).
    + exact (proj1 (upload_agree cfg cfg req
                      (with_csv_write_error (Some x) e)
                      (with_csv_write_error None e) w
                      eq_refl eq_refl eq_refl eq_refl)).
    + exact (proj1 (proj2 (upload_agree cfg cfg req
                             (with_csv_write_error (Some x) e)
                             (with_csv_write_error None e) w
                             eq_refl eq_refl eq_refl eq_refl))).
Qed.

(** C8: whatever [requests.post] does (it raises, or returns any status),
    and whether or not a webhook URL is configured at all, [log_event]
    returns normally, and the result, the log file and the upload directory
    left by [log_event] and by each of its callers are the same. *)
Theorem webhook_never_affects_outcome cfg ip event password chat story_url
    req e w o u :
  let cfg' := with_script_url u cfg in
  let e' := with_post_result o e in
  (log_event cfg' ip event password chat story_url e' w).1 = Ok tt
  ∧ outcome (log_event cfg' ip event password chat story_url e' w)
    = outcome (log_event cfg ip event password chat story_url e w)
  ∧ outcome (save_password cfg' req e' w) = outcome (save_password cfg req e w)
  ∧ outcome (upload_story_video cfg' req e' w)
    = outcome (upload_story_video cfg req e w)
  ∧ outcome (log_chat cfg' req e' w) = outcome (log_chat cfg req e w).
Proof.
  intros cfg' e'. subst cfg' e'. unfold outcome.
  split; [|split; [|split; [|split]]].
  - by destruct (log_event_run (with_script_url u cfg) ip event password chat
      story_url (with_post_result o e) w) as (w' & -> & _).
  - edestruct (log_event_agree (with_script_url u cfg) cfg ip event password
      chat story_url (with_post_result o e) e w) as (-> & -> & -> & ->); done.
  - edestruct (save_password_agree (with_script_url u cfg) cfg req
      (with_post_result o e) e w) as ((resp & -> & ->) & -> & ->); done.
  - edestruct (upload_agree (with_script_url u cfg) cfg req
      (with_post_result o e) e w) as ((resp & -> & ->) & -> & ->); done.
  - edestruct (log_chat_agree (with_script_url u cfg) cfg req
      (with_post_result o e) e w) as ((resp & -> & ->) & -> & ->); done.
Qed.

(** ** Logs made by the program *)

Lemma startup_creates_header e w :
  log_file w = None → csv_write_error e = None →
  startup e w = (Ok tt, set_log (Some [header]) w).
Proof. intros Hl He. unfold startup. unfold_steps. by rewrite Hl, He. Qed.

(** From a log made of the header and records, appending more records
    through [log_event] gives the header and all the records in the order
    of the appends. *)
Lemma append_all_log cfg records e : ∀ w logged,
  csv_write_error e = None →
  log_file w = Some (header :: (record_row <$> logged)) →
  ∃ w', append_all cfg records e w = (Ok tt, w')
    ∧ uploads w' = uploads w
    ∧ log_file w'
      = Some (header :: (record_row <$> (logged ++ (stamped (now e) <$> records))%list)).
Proof.
  induction records as [|r rs IH]; intros w logged He Hl; cbn [append_all].
  - exists w. by rewrite app_nil_r.
  - unfold bind.
    edestruct log_event_run as (w1 & -> & Hu1 & Hl1 & _).
    rewrite He, Hl in Hl1. cbn [default] in Hl1.
    destruct (IH w1 (logged ++ [stamped (now e) r])%list He) as (w' & -> & Hu & Hl').
    { rewrite Hl1, fmap_app. done. }
    exists w'. split; [done|]. split; [congruence|].
    rewrite Hl', fmap_cons. by rewrite <- app_assoc.
Qed.

Lemma well_formed_log_after e row w ts ip kind pw ch url :
  row = [ts; ip; kind; pw; ch; url] →
  well_formed_log w →
  ∀ w', log_file w' = log_after e row w → well_formed_log w'.
Proof.
  intros -> [records Hl] w' Hw'. unfold log_after in Hw'.
  destruct (csv_write_error e).
  - exists records. congruence.
  - exists (records ++ [{| timestamp := ts; source_ip := ip; event_kind := kind;
                           credential := pw; chat_text := ch; story_url := url |}])%list.
    rewrite Hw', Hl, fmap_app. done.
Qed.

(** The module-level code makes a well-formed log where there is none, and
    every handler keeps the log well formed: the logs that the queries of
    C1 read are of this form. *)
Lemma startup_well_formed e w :
  log_file w = None → csv_write_error e = None →
  well_formed_log (startup e w).2.
Proof.
  intros Hl He. rewrite startup_creates_header by done. by exists [].
Qed.

Lemma handlers_keep_log_well_formed cfg req e w :
  well_formed_log w →
  well_formed_log (save_password cfg req e w).2
  ∧ well_formed_log (log_chat cfg req e w).2
  ∧ well_formed_log (upload_story_video cfg req e w).2
  ∧ well_formed_log (last_admin_story e w).2
  ∧ well_formed_log (last_user_story e w).2.
Proof.
  intros Hwf. split; [|split; [|split; [|split]]].
  - destruct (save_password_run cfg req e w) as (w' & -> & _ & Hl & _).
    eapply well_formed_log_after; [reflexivity | exact Hwf | exact Hl].
  - destruct (log_chat_run cfg req e w) as (w' & -> & _ & Hl & _).
    eapply well_formed_log_after; [reflexivity | exact Hwf | exact Hl].
  - destruct (upload_cases req) as [(body & Hrej) | (file & Hv)].
    + by rewrite Hrej.
    + destruct (upload_run cfg req file e w Hv) as (w' & -> & _ & Hl & _).
      eapply well_formed_log_after; [reflexivity | exact Hwf | exact Hl].
  - destruct Hwf as [records Hl].
    unfold last_admin_story, find_latest. unfold_steps. rewrite Hl.
    destruct (csv_read_error e); by exists records.
  - destruct Hwf as [records Hl].
    unfold last_user_story, find_latest. unfold_steps. rewrite Hl.
    destruct (csv_read_error e); by exists records.
Qed.


(** ** Further properties of the handlers *)

Lemma http_payloads_app j1 j2 :
  http_payloads (j1 ++ j2) = (http_payloads j1 ++ http_payloads j2)%list.
Proof. apply omap_app. Qed.

Lemma prints_app j1 j2 : prints (j1 ++ j2) = (prints j1 ++ prints j2)%list.
Proof. apply omap_app. Qed.

Ltac simpl_trace :=
  cbn [journal log_file uploads record_io set_log set_uploads fst snd] in *;
  repeat rewrite ?csv_appends_app, ?file_saves_app, ?remote_uploads_app,
    ?http_posts_app, ?http_payloads_app, ?prints_app in *;
  cbn [csv_appends file_saves remote_uploads http_posts http_payloads prints
       omap list_omap] in *;
  repeat rewrite ?app_nil_r in *; repeat rewrite <- ?app_assoc in *;
  cbn [app] in *.

(** The webhook posts of one call of [log_event]. *)
Lemma log_event_trace cfg ip event password chat story_url e w :
  ∃ w', log_event cfg ip event password chat story_url e w = (Ok tt, w')
    ∧ http_payloads (journal w')
      = (http_payloads (journal w)
         ++ (if truthy (GOOGLE_SCRIPT_URL cfg)
             then [(GOOGLE_SCRIPT_URL cfg,
                    [("event", event); ("password", default "" password);
                     ("chat", default "" chat);
                     ("story_url", default "" story_url); ("ip", ip)])]
             else []))%list.
Proof.
  unfold_io.
  destruct (csv_write_error e) as [x|];
    destruct (truthy (GOOGLE_SCRIPT_URL cfg));
    destruct (post_result e) as [y|st];
    eexists; (split; [reflexivity|]); by simpl_trace.
Qed.

(** X1: [log_event] mirrors the row to the webhook exactly when a webhook
    URL is configured, with one post that carries the event, password,
    chat, story_url and ip of the row, and it does so whether or not the
    row could be written to the log.  On the console it reports a failed
    write and a post that raised, and nothing else: a response of the
    webhook is not looked at, whatever its status. *)
Theorem log_event_mirrors_and_reports cfg ip event password chat story_url e w :
  let run := log_event cfg ip event password chat story_url e w in
  let configured := truthy (GOOGLE_SCRIPT_URL cfg) in
  http_payloads (journal run.2)
  = (http_payloads (journal w)
     ++ (if configured
         then [(GOOGLE_SCRIPT_URL cfg,
                [("event", event); ("password", default "" password);
                 ("chat", default "" chat);
                 ("story_url", default "" story_url); ("ip", ip)])]
         else []))%list
  ∧ prints (journal run.2)
    = (prints (journal w)
       ++ match csv_write_error e with
          | Some x => [("Failed to write to CSV log: " ++ exn_msg x)%string]
          | None => []
          end
       ++ match post_result e with
          | PostRaises x =>
              if configured
              then [("Failed to send to Google Sheet: " ++ exn_msg x)%string]
              else []
          | PostReturns _ => []
          end)%list.
Proof.
  intros run configured. subst run configured. unfold_io.
  destruct (csv_write_error e) as [x|];
    destruct (truthy (GOOGLE_SCRIPT_URL cfg));
    destruct (post_result e) as [y|st]; by simpl_trace.
Qed.



(** X4: when a webhook is configured, every gate attempt, accepted or
    refused, posts the submitted credential as it was typed to the
    webhook, whatever happens to the log. *)
Theorem gate_mirrors_credential cfg req e w :
  truthy (GOOGLE_SCRIPT_URL cfg) = true →
  ∃ kind,
    kind = (if bool_decide (submitted_password req = ADMIN_PASSWORD cfg)
            then "password_attempt" else "password_attempt_failed")
    ∧ http_payloads (journal (save_password cfg req e w).2)
      = (http_payloads (journal w)
         ++ [(GOOGLE_SCRIPT_URL cfg,
              [("event", kind); ("password", submitted_password req);
               ("chat", ""); ("story_url", ""); ("ip", client_ip req)])])%list.
Proof.
  intros Hurl. eexists. split; [reflexivity|].
  unfold save_password. fold (submitted_password req). unfold bind, ret.
  case_bool_decide;
    edestruct log_event_trace as (w' & Hrun & Hp);
    rewrite Hrun; cbn [snd]; rewrite Hp, Hurl; done.
Qed.

Lemma client_ip_nonempty req : client_ip req ≠ "".
Proof.
  unfold client_ip. destruct (remote_addr req) as [[|c a]|]; cbn; discriminate.
Qed.

(** The answer of the two query handlers, in every environment. *)
Lemma find_latest_answer kind failure e w :
  ∃ w', find_latest kind failure e w = (Ok (query_answer kind e w), w')
        ∧ media_untouched w w' ∧ log_untouched w w'.
Proof.
  unfold find_latest, query_answer, media_untouched, log_untouched.
  unfold_steps.
  destruct (log_file w) as [rows|] eqn:Hl; destruct (csv_read_error e);
    eexists; (split; [reflexivity|]); simpl_trace; by rewrite ?Hl.
Qed.

Lemma last_story_answer e w :
  (last_admin_story e w).1 = Ok (Json [("url", query_answer "admin_story_upload" e w)])
  ∧ (last_user_story e w).1 = Ok (Json [("url", query_answer "user_story_upload" e w)]).
Proof.
  unfold last_admin_story, last_user_story, bind, ret.
  split; edestruct find_latest_answer as (w' & -> & _); done.
Qed.

(** X5: the query handlers, the file-serving route and the two pages never
    raise and change nothing: the log file and the upload directory are as
    before, and no append, webhook post, save or remote upload is
    attempted.  The gate and the chat handler never touch the media store
    either: of all handlers only [upload_story_video] writes to the upload
    directory or calls the remote host. *)
Theorem only_upload_writes_media cfg req name e w :
  (∀ run, run ∈ [last_admin_story e w; last_user_story e w;
                 uploaded_file cfg name e w; index e w; main e w] →
     (∃ resp, run.1 = Ok resp)
     ∧ media_untouched w run.2 ∧ log_untouched w run.2)
  ∧ media_untouched w (save_password cfg req e w).2
  ∧ media_untouched w (log_chat cfg req e w).2.
Proof.
  split; [|split].
  - intros run Hrun. repeat apply elem_of_cons in Hrun as [-> | Hrun].
    + unfold last_admin_story, bind, ret.
      edestruct find_latest_answer as (w' & -> & Hm & Hl). eauto.
    + unfold last_user_story, bind, ret.
      edestruct find_latest_answer as (w' & -> & Hm & Hl). eauto.
    + unfold uploaded_file. destruct (safe_join _ _) as [path|]; unfold_steps.
      * destruct (uploads w !! path); split; eauto; by split.
      * split; eauto; by split.
    + split; [by eexists|]. by split.
    + split; [by eexists|]. by split.
    + by apply elem_of_nil in Hrun.
  - destruct (save_password_run cfg req e w) as (w' & Hrun & Hu & _).
    unfold save_password in *. fold (submitted_password req) in *.
    unfold bind, ret in *.
    case_bool_decide;
      edestruct log_event_run as (w1 & Hrun1 & Hu1 & _ & _ & Hs & Hr);
      rewrite Hrun1; by split.
  - unfold log_chat, bind, ret.
    edestruct log_event_run as (w1 & Hrun1 & Hu1 & _ & _ & Hs & Hr).
    rewrite Hrun1. by split.
Qed.

(** X6: the log is append-only.  Starting from an existing log, the
    module-level code and every handler leave the rows that were there in
    place and in order, and add at most one row after them. *)
Theorem log_is_append_only cfg req name e w rows :
  log_file w = Some rows →
  ∀ w', w' ∈ [(startup e w).2; (save_password cfg req e w).2;
              (log_chat cfg req e w).2; (upload_story_video cfg req e w).2;
              (last_admin_story e w).2; (last_user_story e w).2;
              (uploaded_file cfg name e w).2] →
    extends_log rows w'.
Proof.
  intros Hl w' Hw'.
  assert (Hsame : ∀ w1, log_file w1 = log_file w → extends_log rows w1).
  { intros w1 H1. exists []. rewrite app_nil_r. split; [congruence | cbn; lia]. }
  assert (Hafter : ∀ w1 row, log_file w1 = log_after e row w → extends_log rows w1).
  { intros w1 row H1. unfold log_after in H1. rewrite Hl in H1.
    destruct (csv_write_error e).
    - exists []. rewrite app_nil_r. split; [done | cbn; lia].
    - exists [row]. split; [done | cbn; lia]. }
  repeat apply elem_of_cons in Hw' as [-> | Hw'].
  - apply Hsame. unfold startup. unfold_steps. by rewrite Hl.
  - destruct (save_password_run cfg req e w) as (w1 & -> & _ & H1 & _). eauto.
  - destruct (log_chat_run cfg req e w) as (w1 & -> & _ & H1 & _). eauto.
  - destruct (upload_cases req) as [(body & Hrej) | (file & Hv)].
    + rewrite Hrej. by apply Hsame.
    + destruct (upload_run cfg req file e w Hv) as (w1 & -> & _ & H1 & _). eauto.
  - apply Hsame. unfold last_admin_story, bind, ret.
    edestruct find_latest_answer as (w1 & -> & _ & H1 & _). done.
  - apply Hsame. unfold last_user_story, bind, ret.
    edestruct find_latest_answer as (w1 & -> & _ & H1 & _). done.
  - apply Hsame. unfold uploaded_file.
    destruct (safe_join _ _) as [path|]; unfold_steps; [|done].
    by destruct (uploads w !! path).
  - by apply elem_of_nil in Hw'.
Qed.

(** X7: every row that a handler hands to the log has six fields, a
    non-empty client address (["unknown"] when the request has none), one
    of the five event kinds, and only the optional field of its kind filled
    in: the password for gate attempts, the chat text for chat messages,
    the story URL for uploads. *)
Theorem logged_rows_have_fixed_shape cfg req e w :
  ∀ w', w' ∈ [(save_password cfg req e w).2; (log_chat cfg req e w).2;
              (upload_story_video cfg req e w).2] →
    ∃ new, csv_appends (journal w') = (csv_appends (journal w) ++ new)%list
           ∧ Forall handler_row new
           ∧ Forall (λ row, ∃ kind, row !! 2%nat = Some kind ∧ kind ∈ event_kinds) new.
Proof.
  intros w' Hw'. pose proof (client_ip_nonempty req) as Hip.
  repeat apply elem_of_cons in Hw' as [-> | Hw'].
  - destruct (save_password_run cfg req e w) as (w1 & -> & _ & _ & Hc).
    eexists. split; [exact Hc|]. split; repeat constructor.
    + do 6 eexists. split; [reflexivity|]. split; [done|]. left.
      split; [|done]. case_bool_decide; set_solver.
    + eexists. split; [reflexivity|]. unfold event_kinds.
      case_bool_decide; set_solver.
  - destruct (log_chat_run cfg req e w) as (w1 & -> & _ & _ & Hc).
    eexists. split; [exact Hc|]. split; repeat constructor.
    + do 6 eexists. split; [reflexivity|]. split; [done|]. right. left. done.
    + eexists. split; [reflexivity|]. unfold event_kinds. set_solver.
  - destruct (upload_cases req) as [(body & Hrej) | (file & Hv)].
    + rewrite Hrej. exists []. by rewrite app_nil_r.
    + destruct (upload_run cfg req file e w Hv) as (w1 & -> & _ & _ & Hc & _).
      eexists. split; [exact Hc|]. split; repeat constructor.
      * do 6 eexists. split; [reflexivity|]. split; [done|]. right. right.
        split; [|done]. unfold upload_kind. case_bool_decide; set_solver.
      * eexists. split; [reflexivity|]. unfold event_kinds, upload_kind.
        case_bool_decide; set_solver.
  - by apply elem_of_nil in Hw'.
Qed.

(** X8: the persisted format is an invariant of the running application.
    Started where there is no log (the header is then written) or on a log
    in the format, and after any number of requests, whatever the
    environment answered, the log is the header followed by six-field
    rows. *)
Theorem log_stays_well_formed cfg w :
  running cfg w → well_formed_log w.
Proof.
  induction 1 as [e w Hl He | e w Hwf | w w' _ IH Hstep].
  - rewrite startup_creates_header by done. by exists [].
  - destruct Hwf as [records Hl]. unfold startup. unfold_steps. rewrite Hl.
    by exists records.
  - destruct Hstep as [req e w | req e w | req e w | e w | e w | name e w].
    + by apply handlers_keep_log_well_formed.
    + by apply handlers_keep_log_well_formed.
    + by apply handlers_keep_log_well_formed.
    + by apply (handlers_keep_log_well_formed cfg
                  {| remote_addr := None; get_json := None; form := ∅;
                     files := ∅; url_origin := "" |}).
    + by apply (handlers_keep_log_well_formed cfg
                  {| remote_addr := None; get_json := None; form := ∅;
                     files := ∅; url_origin := "" |}).
    + unfold uploaded_file. destruct (safe_join _ _) as [path|]; unfold_steps;
        [|done]. by destruct (uploads w !! path).
Qed.



Lemma zip_dict_notin k names : ∀ row d,
  k ∉ names → zip_dict names row d !! k = d !! k.
Proof.
  induction names as [|n names IH]; intros row d Hk; [done|].
  apply not_elem_of_cons in Hk as [Hn Hk].
  destruct row as [|v vs]; cbn [zip_dict]; rewrite IH by done;
    by rewrite lookup_insert_ne.
Qed.

(** X10: the queries find the rows through the column names of the first
    row of the file.  When that row has no [event] column or no [story_url]
    column, both queries answer the empty URL whatever the other rows
    hold. *)
Theorem queries_need_both_columns names rows e w :
  log_file w = Some (names :: rows) →
  "event" ∉ names ∨ "story_url" ∉ names →
  (last_admin_story e w).1 = Ok (Json [("url", "")])
  ∧ (last_user_story e w).1 = Ok (Json [("url", "")]).
Proof.
  intros Hl Hnames.
  assert (Hnone : ∀ kind, query_answer kind e w = "").
  { intros kind. unfold query_answer. rewrite Hl.
    destruct (csv_read_error e); [done|].
    rewrite <- (app_nil_r (reverse _)). rewrite scan_rows_skip; [done|].
    apply Forall_reverse, Forall_fmap, Forall_forall. intros row _.
    unfold row_matches, dict_get. cbn.
    destruct Hnames as [Hn | Hn]; rewrite (zip_dict_notin _ _ _ _ Hn);
      rewrite lookup_empty; cbn; intros [H1 H2]; done. }
  destruct (last_story_answer e w) as [-> ->]. by rewrite !Hnone.
Qed.

Lemma header_dict_fields row :
  dict_get (zip_dict header row ∅) "event" = row !! 2%nat
  ∧ dict_get (zip_dict header row ∅) "story_url" = row !! 5%nat.
Proof.
  destruct row as [|a [|b [|c [|d [|f [|g rest]]]]]]; split; reflexivity.
Qed.

Lemma positional_match_dict kind row :
  row_matches kind (zip_dict header row ∅) ↔ positional_match kind row.
Proof.
  unfold row_matches, positional_match.
  destruct (header_dict_fields row) as [-> ->].
  split.
  - intros [Hk Hu]. split; [done|].
    destruct (row !! 5%nat) as [url|]; [|done]. by exists url.
  - intros [Hk (url & -> & Hu)]. done.
Qed.

(** X11: under the standard header the queries read a row by position: the
    kind is its third field and the URL its sixth.  The answer is the sixth
    field of the last row that has the queried kind and a non-empty sixth
    field; rows that are blank or too short to have a sixth field are
    passed over, and fields after the sixth are ignored. *)
Theorem queries_read_by_position kind failure rows before row after url e w :
  log_file w = Some (header :: rows) →
  csv_read_error e = None →
  rows = (before ++ row :: after)%list →
  row !! 2%nat = Some kind → row !! 5%nat = Some url → url ≠ "" →
  Forall (λ r, ¬ positional_match kind r) after →
  find_latest kind failure e w = (Ok url, w).
Proof.
  intros Hl Hr -> Hk Hu Hne Hafter.
  assert (Hrow : row ≠ []) by (intros ->; discriminate).
  assert (Hmatch : row_matches kind (zip_dict header row ∅)).
  { apply positional_match_dict. split; [done|]. by exists url. }
  rewrite (find_latest_last_match kind failure (header :: before ++ row :: after)
             ((λ r, zip_dict header r ∅) <$> filter (λ r, r ≠ []) before)
             (zip_dict header row ∅)
             ((λ r, zip_dict header r ∅) <$> filter (λ r, r ≠ []) after)
             e w Hl Hr).
  - destruct (header_dict_fields row) as [_ ->]. by rewrite Hu.
  - unfold DictReader. rewrite filter_app, filter_cons_True by done.
    by rewrite fmap_app, fmap_cons.
  - exact Hmatch.
  - apply Forall_fmap, Forall_forall. intros r [_ Hin]%list_elem_of_filter.
    rewrite Forall_forall in Hafter. cbn. intros Hm.
    apply positional_match_dict in Hm. by apply (Hafter r).
Qed.

(** X12: the module-level code writes the header only when the log file
    does not exist.  A log file that exists and is empty is left empty, and
    the first row logged afterwards is then read as the row of column
    names: after a first upload, logged with whatever URL, both queries
    still answer the empty URL. *)
Theorem first_row_of_empty_log_is_lost cfg req file e e' w :
  log_file w = Some [] → validated req file → csv_write_error e = None →
  let started := (startup e w).2 in
  let uploaded := (upload_story_video cfg req e started).2 in
  log_file started = Some []
  ∧ (∃ url, log_file uploaded
            = Some [[now e; client_ip req; upload_kind req; ""; ""; url]])
  ∧ (last_admin_story e' uploaded).1 = Ok (Json [("url", "")])
  ∧ (last_user_story e' uploaded).1 = Ok (Json [("url", "")]).
Proof.
  intros Hl Hv He started uploaded. subst started uploaded.
  assert (Hstart : startup e w = (Ok tt, w)).
  { unfold startup. unfold_steps. by rewrite Hl. }
  rewrite Hstart. cbn [snd].
  destruct (upload_run cfg req file e w Hv) as (w1 & -> & _ & H1 & _).
  cbn [snd]. rewrite He, Hl in H1. cbn [default] in H1. unfold id in H1.
  cbn [app] in H1.
  split; [done|]. split; [by eexists|].
  destruct (last_story_answer e' w1) as [-> ->].
  unfold query_answer. rewrite H1. by destruct (csv_read_error e').
Qed.

(** The webhook post of a validated upload. *)
Lemma upload_posts cfg req file e w :
  validated req file →
  let local_path := path_join (STORY_FOLDER cfg) (secure_filename (filename file)) in
  let disk := disk_after_save e local_path (stream file) (uploads w) in
  http_payloads (journal (upload_story_video cfg req e w).2)
  = (http_payloads (journal w)
     ++ (if truthy (GOOGLE_SCRIPT_URL cfg)
         then [(GOOGLE_SCRIPT_URL cfg,
                [("event", upload_kind req); ("password", ""); ("chat", "");
                 ("story_url", resolved_url cfg req file e disk);
                 ("ip", client_ip req)])]
         else []))%list.
Proof.
  intros (Hfile & Hname & Hext) local_path disk.
  unfold upload_story_video. rewrite Hfile.
  rewrite bool_decide_eq_false_2 by exact Hname.
  rewrite Hext. cbn [negb]. rewrite upload_kind_form.
  fold local_path. unfold_steps.
  unfold resolved_url. fold local_path. subst disk.
  unfold disk_after_save.
  destruct (save_result e) as [|x [part|]]; cbn [uploads record_io set_uploads];
    match goal with
    | |- context [ ?m !! local_path ] =>
        destruct (m !! local_path) as [data|] eqn:Hdisk
    end;
    try destruct (cloud_result e data) as [y|r] eqn:Hcloud;
    edestruct log_event_trace as (w' & Hrun & Hp);
    rewrite Hrun; cbn [default snd] in *; rewrite Hp; simpl_trace;
    rewrite ?Hcloud; done.
Qed.

(** X14: an upload changes the upload directory at one path only, the one
    made of the upload folder and the sanitized file name.  Every other
    file is as it was, and a file that was at that path is still there
    afterwards (with the new content, or what a failed save left). *)
Theorem upload_touches_one_path cfg req e w p :
  let after := uploads (upload_story_video cfg req e w).2 in
  ((∀ file, files req !! "video" = Some file →
      p ≠ path_join (STORY_FOLDER cfg) (secure_filename (filename file))) →
   after !! p = uploads w !! p)
  ∧ (is_Some (uploads w !! p) → is_Some (after !! p)).
Proof.
  intros after. subst after.
  destruct (upload_cases req) as [(body & Hrej) | (file & Hv)].
  - rewrite Hrej. done.
  - destruct (upload_run cfg req file e w Hv) as (w1 & -> & Hu & _).
    cbn [snd]. rewrite Hu. unfold disk_after_save.
    set (q := path_join _ _). split.
    + intros Hp. specialize (Hp file (proj1 Hv)). fold q in Hp.
      destruct (save_result e) as [|x [part|]]; by rewrite ?lookup_insert_ne.
    + intros Hsome.
      destruct (save_result e) as [|x [part|]]; [| |done];
        (destruct (decide (q = p)) as [->|Hne];
         [rewrite lookup_insert_eq; eauto | by rewrite lookup_insert_ne]).
Qed.

(** X15: round trip through the local tier.  After a validated upload whose
    local save succeeded, the file under the sanitized name holds the
    uploaded bytes, and the file-serving route returns exactly these bytes
    for that name when [safe_join] accepts it, whatever the remote host and
    the log did. *)
Theorem upload_saved_copy_is_served cfg req file e e' w :
  validated req file → save_result e = SaveOk →
  let fname := secure_filename (filename file) in
  let local_path := path_join (STORY_FOLDER cfg) fname in
  let run := upload_story_video cfg req e w in
  uploads run.2 !! local_path = Some (stream file)
  ∧ (safe_join (STORY_FOLDER cfg) fname = Some local_path →
     uploaded_file cfg fname e' run.2 = (Ok (SendFile (stream file)), run.2)).
Proof.
  intros Hv Hs fname local_path run. subst fname local_path run.
  destruct (upload_run cfg req file e w Hv) as (w1 & -> & Hu & _).
  cbn [snd]. unfold disk_after_save in Hu. rewrite Hs in Hu.
  assert (Hfile : uploads w1 !! path_join (STORY_FOLDER cfg)
                    (secure_filename (filename file)) = Some (stream file)).
  { rewrite Hu. apply lookup_insert_eq. }
  split; [exact Hfile|].
  intros Hjoin. unfold uploaded_file. rewrite Hjoin. unfold_steps.
  by rewrite Hfile.
Qed.

(** X16: when the local save succeeds and the remote host returns a result,
    the URL that is logged is the [secure_url] of that result and never the
    local one; the bytes sent are the uploaded ones, and the local copy is
    kept although no logged URL points to it. *)
Theorem upload_prefers_remote_url cfg req file e w r :
  validated req file → save_result e = SaveOk →
  cloud_result e (stream file) = CloudReturns r →
  let local_path := path_join (STORY_FOLDER cfg) (secure_filename (filename file)) in
  let run := upload_story_video cfg req e w in
  csv_appends (journal run.2)
  = (csv_appends (journal w)
     ++ [[now e; client_ip req; upload_kind req; ""; "";
          default "" (r !! "secure_url")]])%list
  ∧ remote_uploads (journal run.2) = (remote_uploads (journal w) ++ [stream file])%list
  ∧ uploads run.2 !! local_path = Some (stream file).
Proof.
  intros Hv Hs Hcloud local_path run. subst local_path run.
  destruct (upload_run cfg req file e w Hv) as (w1 & -> & Hu & _ & Hc & _ & Hr).
  cbn [snd]. rewrite Hc, Hr, Hu. unfold resolved_url, disk_after_save.
  rewrite Hs, lookup_insert_eq, Hcloud. done.
Qed.

(** X17: two uploads whose names are sanitized to the same name share one
    file: after the second one, saved successfully, the file holds the
    bytes of the second upload, and the file-serving route returns them
    under the name of the first. *)
Theorem second_upload_overwrites cfg req1 file1 e1 req2 file2 e2 e' w :
  validated req1 file1 → validated req2 file2 →
  secure_filename (filename file1) = secure_filename (filename file2) →
  save_result e2 = SaveOk →
  let fname := secure_filename (filename file1) in
  let local_path := path_join (STORY_FOLDER cfg) fname in
  let w1 := (upload_story_video cfg req1 e1 w).2 in
  let w2 := (upload_story_video cfg req2 e2 w1).2 in
  uploads w2 !! local_path = Some (stream file2)
  ∧ (safe_join (STORY_FOLDER cfg) fname = Some local_path →
     uploaded_file cfg fname e' w2 = (Ok (SendFile (stream file2)), w2)).
Proof.
  intros Hv1 Hv2 Hname Hs fname local_path w1 w2. subst fname local_path w1 w2.
  destruct (upload_run cfg req1 file1 e1 w Hv1) as (w1 & -> & _).
  cbn [snd].
  destruct (upload_run cfg req2 file2 e2 w1 Hv2) as (w2 & -> & Hu & _).
  cbn [snd]. unfold disk_after_save in Hu. rewrite Hs in Hu.
  assert (Hfile : uploads w2 !! path_join (STORY_FOLDER cfg)
                    (secure_filename (filename file1)) = Some (stream file2)).
  { rewrite Hu, Hname. apply lookup_insert_eq. }
  split; [exact Hfile|].
  intros Hjoin. unfold uploaded_file. rewrite Hjoin. unfold_steps.
  by rewrite Hfile.
Qed.

(** Two requests with the same files are refused alike, or validated
    alike. *)
Lemma upload_cases_same_files req req' :
  files req' = files req →
  (∃ body, ∀ cfg e w,
     upload_story_video cfg req e w = (Ok (Text body 400), w)
     ∧ upload_story_video cfg req' e w = (Ok (Text body 400), w))
  ∨ (∃ file, validated req file ∧ validated req' file).
Proof.
  intros Hfiles. unfold validated. rewrite Hfiles.
  destruct (files req !! "video") as [file|] eqn:Hfile.
  - destruct (decide (filename file = "")) as [Hname|Hname].
    + left. eexists. intros. unfold upload_story_video.
      by rewrite Hfiles, Hfile, Hname.
    + destruct (allowed_file (filename file)) eqn:Hext.
      * right. by exists file.
      * left. eexists. intros. unfold upload_story_video.
        rewrite Hfiles, Hfile, Hext. by rewrite bool_decide_eq_false_2.
  - left. eexists. intros. unfold upload_story_video. by rewrite Hfiles, Hfile.
Qed.

(** X18: the [uploader] field of the form picks the event kind and nothing
    else.  With any other form, the same request gets the same response,
    leaves the same upload directory, makes the same save and remote
    upload, and logs a row that differs in the kind only. *)
Theorem uploader_only_picks_kind cfg req f e w :
  let a := upload_story_video cfg req e w in
  let b := upload_story_video cfg (with_form f req) e w in
  a.1 = b.1
  ∧ uploads a.2 = uploads b.2
  ∧ file_saves (journal a.2) = file_saves (journal b.2)
  ∧ remote_uploads (journal a.2) = remote_uploads (journal b.2)
  ∧ (∀ file, validated req file →
       ∃ url,
         csv_appends (journal a.2)
         = (csv_appends (journal w)
            ++ [[now e; client_ip req; upload_kind req; ""; ""; url]])%list
         ∧ csv_appends (journal b.2)
           = (csv_appends (journal w)
              ++ [[now e; client_ip req; upload_kind (with_form f req); ""; "";
                   url]])%list).
Proof.
  intros a b. subst a b.
  destruct (upload_cases_same_files req (with_form f req) eq_refl)
    as [(body & Hrej) | (file & Hv & Hv')].
  - destruct (Hrej cfg e w) as [-> ->]. repeat split; try done.
    intros file (Hfile & Hname & Hext). exfalso.
    destruct (upload_run cfg req file e w (conj Hfile (conj Hname Hext)))
      as (w1 & Hrun & _).
    destruct (Hrej cfg e w) as [Hrej1 _]. congruence.
  - destruct (upload_run cfg req file e w Hv)
      as (w1 & -> & Hu1 & _ & Hc1 & Hs1 & Hr1).
    destruct (upload_run cfg (with_form f req) file e w Hv')
      as (w2 & -> & Hu2 & _ & Hc2 & Hs2 & Hr2).
    cbn [fst snd]. rewrite Hu1, Hu2, Hs1, Hs2, Hr1, Hr2.
    repeat split; try done.
    intros file' Hv''. eexists. split; [exact Hc1|].
    rewrite Hc2. reflexivity.
Qed.

(** X19: a validated upload attempts each step once and retries nothing:
    one save, at most one remote upload, one row for the log, and, when a
    webhook is configured, one post, which carries the same kind, address
    and story URL as the row. *)
Theorem upload_attempts_each_step_once cfg req file e w :
  validated req file →
  let j := journal (upload_story_video cfg req e w).2 in
  let local_path := path_join (STORY_FOLDER cfg) (secure_filename (filename file)) in
  file_saves j = (file_saves (journal w) ++ [local_path])%list
  ∧ (∃ sent, remote_uploads j = (remote_uploads (journal w) ++ sent)%list
             ∧ (length sent ≤ 1)%nat)
  ∧ ∃ url,
      csv_appends j
      = (csv_appends (journal w)
         ++ [[now e; client_ip req; upload_kind req; ""; ""; url]])%list
      ∧ http_payloads j
        = (http_payloads (journal w)
           ++ (if truthy (GOOGLE_SCRIPT_URL cfg)
               then [(GOOGLE_SCRIPT_URL cfg,
                      [("event", upload_kind req); ("password", "");
                       ("chat", ""); ("story_url", url);
                       ("ip", client_ip req)])]
               else []))%list.
Proof.
  intros Hv j local_path. subst j local_path.
  pose proof (upload_posts cfg req file e w Hv) as Hp. cbn zeta in Hp.
  destruct (upload_run cfg req file e w Hv) as (w1 & Hrun & _ & _ & Hc & Hs & Hr).
  rewrite Hrun in *. cbn [snd] in *.
  split; [exact Hs|]. split.
  - eexists. split; [exact Hr|]. destruct (_ !! _); cbn; lia.
  - eexists. split; [exact Hc | exact Hp].
Qed.

(** X20: the routes do not collide.  The seven fixed rules are pairwise
    different, and the URL of an uploaded file is different from each of
    them whatever the file name is, so that no upload can take the place
    of a page or of a handler. *)
Theorem uploaded_file_urls_do_not_collide name :
  let fixed := [ep_index; ep_save_password; ep_main; ep_upload_story_video;
                ep_last_admin_story; ep_last_user_story; ep_log_chat] in
  NoDup (url_rule <$> fixed)
  ∧ url_rule (ep_uploaded_file name) ∉ url_rule <$> fixed.
Proof.
  cbn zeta. split.
  - cbn. repeat (constructor; [rewrite ?elem_of_cons, elem_of_nil; intros H;
                               repeat destruct H as [H|H]; done|]).
    constructor.
  - cbn. rewrite !elem_of_cons, elem_of_nil. unfold String.append.
    intros H. repeat destruct H as [H|H]; try discriminate H. done.
Qed.

(** X21: [allowed_file] looks at the text after the last dot only.  A name
    without a dot is refused; a name with a dot is accepted exactly when
    that text, lower-cased, is one of the five extensions, whatever stands
    before the dot (nothing, more dots, or a path). *)
Theorem allowed_file_last_extension_decides filename :
  (str_contains "." filename = false → allowed_file filename = false)
  ∧ (∀ stem ext, filename = stem ++ "." ++ ext →
       str_contains "." ext = false →
       allowed_file filename = bool_decide (str_lower ext ∈ ALLOWED_EXTENSIONS)).
Proof.
  split.
  - intros Hno. unfold allowed_file. by rewrite Hno.
  - intros stem ext -> Hno. unfold allowed_file, rsplit1.
    change (stem ++ "." ++ ext) with (stem ++ String "." ext).
    rewrite str_contains_middle.
    by rewrite (proj2 (rsplit_point_some "." _ stem ext)).
Qed.


End App.

(** ** The theorems at concrete inputs *)

Example allowed_file_examples :
  allowed_file ascii_lower "clip.mp4" = true
  ∧ allowed_file ascii_lower "My Clip.MP4" = true
  ∧ allowed_file ascii_lower "archive.tar.webm" = true
  ∧ allowed_file ascii_lower "notes.txt" = false
  ∧ allowed_file ascii_lower "mp4" = false
  ∧ allowed_file ascii_lower "clip.mp4." = false.
Proof. by vm_compute. Qed.

Example secure_filename_examples :
  secure_filename_ascii "My Clip.MP4" = "My_Clip.MP4"
  ∧ secure_filename_ascii "../../etc/passwd.mov" = "etc_passwd.mov"
  ∧ secure_filename_ascii ".mkv" = "mkv".
Proof. by vm_compute. Qed.

Example story_folder_example :
  STORY_FOLDER sample_cfg = "/srv/app/static/uploads".
Proof. reflexivity. Qed.

Lemma clip_validated uploader :
  validated ascii_lower (upload_request uploader) clip.
Proof.
  split; [|split].
  - by destruct uploader.
  - discriminate.
  - by vm_compute.
Defined.

(** The scenario of C1: after the appends A (admin), B (user), C (admin)
    the admin query answers C. *)
Lemma find_latest_abc_witness :
  log_file abc_world = Some (header :: (record_row <$> abc_records))
  ∧ last_admin_story offline_env abc_world = (Ok (Json [("url", "C")]), abc_world)
  ∧ last_user_story offline_env abc_world = (Ok (Json [("url", "B")]), abc_world).
Proof.
  split; [reflexivity|]. split.
  - refine (proj1 (proj2
      (find_latest_most_recent "admin_story_upload" "" abc_records
         [story "admin_story_upload" "A"; story "user_story_upload" "B"]
         (story "admin_story_upload" "C") [] offline_env abc_world
         eq_refl eq_refl eq_refl _ _)) eq_refl).
    + split; [reflexivity | discriminate].
    + constructor.
  - refine (proj2 (proj2
      (find_latest_most_recent "user_story_upload" "" abc_records
         [story "admin_story_upload" "A"] (story "user_story_upload" "B")
         [story "admin_story_upload" "C"] offline_env abc_world
         eq_refl eq_refl eq_refl _ _)) eq_refl).
    + split; [reflexivity | discriminate].
    + repeat constructor. intros [Hk _]. discriminate Hk.
Defined.

(** C6 on a log that holds a user story only: the admin query is empty. *)
Lemma find_latest_without_story_witness :
  (∃ rows, log_file user_only_world = Some rows
           ∧ Forall (λ d, ¬ row_matches "admin_story_upload" d) (DictReader rows))
  ∧ (last_admin_story offline_env user_only_world).1 = Ok (Json [("url", "")]).
Proof.
  assert (H : ∃ rows, log_file user_only_world = Some rows
                ∧ Forall (λ d, ¬ row_matches "admin_story_upload" d) (DictReader rows)).
  { eexists. split; [reflexivity|].
    repeat constructor. intros [Hk _]. vm_compute in Hk. discriminate Hk. }
  split; [exact H|].
  destruct (find_latest_without_story "admin_story_upload" "" offline_env
              user_only_world (or_intror (or_intror (or_intror H))))
    as (_ & Hadmin & _).
  exact (Hadmin eq_refl).
Defined.

(** C3 on a text file: refused, and the world is untouched. *)
Lemma upload_rejected_witness :
  ¬ has_allowed_extension ascii_lower (filename notes)
  ∧ ∃ body, upload_story_video ascii_lower secure_filename_ascii url_quote_plain sample_cfg (request_with_file notes None)
              offline_env started_world
            = (Ok (Text body 400), started_world).
Proof.
  assert (H : ¬ has_allowed_extension ascii_lower (filename notes)).
  { intros Ha. apply allowed_file_iff in Ha. vm_compute in Ha. discriminate Ha. }
  split; [exact H|].
  destruct (upload_rejected_without_side_effects ascii_lower
              secure_filename_ascii url_quote_plain sample_cfg
              (request_with_file notes None) offline_env started_world)
    as (body & Hrun & _).
  - right. exists notes. split; [reflexivity | right; exact H].
  - exists body. exact Hrun.
Defined.

(** C9 with the uploader ["Admin"]: the kind is [user_story_upload]. *)
Lemma upload_logs_actor_kind_witness :
  validated ascii_lower (upload_request (Some "Admin")) clip
  ∧ upload_kind (upload_request (Some "Admin")) = "user_story_upload"
  ∧ upload_kind (upload_request (Some "root")) = "user_story_upload"
  ∧ upload_kind (upload_request (Some "user")) = "user_story_upload"
  ∧ upload_kind (upload_request None) = "user_story_upload"
  ∧ upload_kind (upload_request (Some "admin")) = "admin_story_upload".
Proof.
  pose proof (λ u, upload_logs_actor_kind ascii_lower secure_filename_ascii
                     url_quote_plain sample_cfg (upload_request u) clip
                     offline_env started_world (clip_validated u)) as Hkind.
  assert (Hother : ∀ u, u ≠ Some "admin" →
            form (upload_request u) !! "uploader" ≠ Some "admin").
  { intros [u|] Hu Heq; vm_compute in Heq; [|discriminate Heq].
    apply Hu. exact Heq. }
  split; [apply clip_validated|].
  split; [apply (proj2 (proj2 (proj2 (Hkind (Some "Admin"))))), Hother; discriminate|].
  split; [apply (proj2 (proj2 (proj2 (Hkind (Some "root"))))), Hother; discriminate|].
  split; [apply (proj2 (proj2 (proj2 (Hkind (Some "user"))))), Hother; discriminate|].
  split; [apply (proj2 (proj2 (proj2 (Hkind None)))), Hother; discriminate|].
  apply (proj2 (proj1 (proj2 (Hkind (Some "admin"))))). reflexivity.
Defined.

(** C2 (amended) with the remote host unreachable: one row, with the
    fallback URL. *)
Lemma upload_appends_one_record_witness :
  validated ascii_lower (upload_request None) clip
  ∧ ∃ url,
      (upload_story_video ascii_lower secure_filename_ascii url_quote_plain sample_cfg (upload_request None) offline_env
         started_world).1 = Ok (Redirect "/main")
      ∧ csv_appends (journal (upload_story_video ascii_lower secure_filename_ascii url_quote_plain sample_cfg
                                (upload_request None) offline_env started_world).2)
        = [["2024-05-01 12:00:00"; "203.0.113.7"; "user_story_upload"; ""; ""; url]].
Proof.
  split; [apply clip_validated|].
  destruct (upload_appends_one_record ascii_lower secure_filename_ascii
              url_quote_plain sample_cfg (upload_request None) clip offline_env
              started_world (clip_validated None)) as (url & Hresp & Hrow & _).
  exists url. split; [exact Hresp | exact Hrow].
Defined.

(** C2 as stated fails: the remote host returns a result without
    [secure_url], and the row that is logged has an empty story_url. *)
Lemma upload_story_url_empty :
  validated ascii_lower (upload_request None) clip
  ∧ (upload_story_video ascii_lower secure_filename_ascii url_quote_plain sample_cfg (upload_request None)
       env_without_secure_url started_world).1 = Ok (Redirect "/main")
  ∧ log_file (upload_story_video ascii_lower secure_filename_ascii url_quote_plain sample_cfg (upload_request None)
                env_without_secure_url started_world).2
    = Some [header;
            ["2024-05-01 12:00:00"; "203.0.113.7"; "user_story_upload"; ""; ""; ""]].
Proof. split; [apply clip_validated|]. by vm_compute. Qed.

(** C4 with the remote host unreachable. *)
Lemma upload_remote_failure_witness :
  validated ascii_lower (upload_request None) clip
  ∧ remote_uploads (journal (upload_story_video ascii_lower secure_filename_ascii url_quote_plain sample_cfg
                               (upload_request None) offline_env started_world).2)
    = [stream clip]
  ∧ csv_appends (journal (upload_story_video ascii_lower secure_filename_ascii url_quote_plain sample_cfg
                            (upload_request None) offline_env started_world).2)
    = [["2024-05-01 12:00:00"; "203.0.113.7"; "user_story_upload"; ""; "";
        "http://stories.example/uploads/My_Clip.MP4"]]
  ∧ uploads (upload_story_video ascii_lower secure_filename_ascii url_quote_plain sample_cfg (upload_request None)
               offline_env started_world).2
      !! "/srv/app/static/uploads/My_Clip.MP4" = Some (stream clip)
  ∧ (uploaded_file safe_join_plain sample_cfg "My_Clip.MP4" offline_env
       (upload_story_video ascii_lower secure_filename_ascii url_quote_plain sample_cfg (upload_request None)
          offline_env started_world).2).1 = Ok (SendFile (stream clip)).
Proof.
  split; [apply clip_validated|]. split; [reflexivity|].
  destruct (upload_remote_failure_falls_back ascii_lower secure_filename_ascii
              url_quote_plain safe_join_plain sample_cfg (upload_request None)
              clip offline_env started_world (stream clip)
              (Exception "network unreachable")
              (clip_validated None) eq_refl eq_refl)
    as (_ & Hrow & _ & _ & Hfile & _ & Hserve).
  split; [exact Hrow|]. split; [exact Hfile|].
  exact (f_equal fst (Hserve eq_refl offline_env)).
Defined.

(** C10 with a full disk and no earlier file of that name: the remote host
    is never called, although it would have accepted the upload. *)
Lemma upload_reads_local_copy_witness :
  validated ascii_lower (upload_request (Some "admin")) clip
  ∧ remote_uploads (journal (upload_story_video ascii_lower secure_filename_ascii url_quote_plain sample_cfg
                               (upload_request (Some "admin")) env_disk_full
                               started_world).2) = []
  ∧ csv_appends (journal (upload_story_video ascii_lower secure_filename_ascii url_quote_plain sample_cfg
                            (upload_request (Some "admin")) env_disk_full
                            started_world).2)
    = [["2024-05-01 12:00:00"; "203.0.113.7"; "admin_story_upload"; ""; "";
        "http://stories.example/uploads/My_Clip.MP4"]]
  ∧ uploads (upload_story_video ascii_lower secure_filename_ascii url_quote_plain sample_cfg (upload_request (Some "admin"))
               env_disk_full started_world).2
      !! "/srv/app/static/uploads/My_Clip.MP4" = None.
Proof.
  split; [apply clip_validated|].
  destruct (upload_reads_local_copy ascii_lower secure_filename_ascii
              url_quote_plain sample_cfg (upload_request (Some "admin")) clip
              env_disk_full started_world (clip_validated (Some "admin")))
    as (_ & Hfail).
  destruct (Hfail (Exception "No space left on device") eq_refl eq_refl)
    as (_ & Hremote & Hrow & Hfile).
  split; [exact Hremote|]. split; [exact Hrow | exact Hfile].
Defined.

(** C5 with the default secret and with another credential. *)
Lemma gate_witness :
  submitted_password (password_request "mrshaik") = ADMIN_PASSWORD sample_cfg
  ∧ submitted_password (password_request "letmein") ≠ ADMIN_PASSWORD sample_cfg
  ∧ (save_password url_quote_plain sample_cfg (password_request "mrshaik")
       offline_env started_world).1 = Ok (Json [("redirect", "/main")])
  ∧ (save_password url_quote_plain sample_cfg (password_request "letmein")
       offline_env started_world).1 = Ok (Json [("message", "Wrong password ❌")]).
Proof.
  split; [reflexivity|]. split; [discriminate|]. split.
  - apply (gate_accepts_exactly_the_secret url_quote_plain sample_cfg
             (password_request "mrshaik") offline_env started_world).
    reflexivity.
  - apply (gate_accepts_exactly_the_secret url_quote_plain sample_cfg
             (password_request "letmein") offline_env started_world).
    discriminate.
Defined.

(** The remote host receives what is on disk, not the request stream: when
    the save is refused and an older file has the name of the upload, the
    older bytes are uploaded and their remote URL is logged. *)
Example upload_sends_older_copy :
  remote_uploads (journal (upload_story_video ascii_lower secure_filename_ascii
                             url_quote_plain sample_cfg (upload_request None)
                             env_save_denied world_with_older_copy).2)
  = [[Byte.xff]]
  ∧ csv_appends (journal (upload_story_video ascii_lower secure_filename_ascii
                            url_quote_plain sample_cfg (upload_request None)
                            env_save_denied world_with_older_copy).2)
    = [["2024-05-01 12:00:00"; "203.0.113.7"; "user_story_upload"; ""; "";
        "https://media.example/stories/clip.mp4"]].
Proof. by vm_compute. Qed.

(** ** The further properties at concrete inputs *)


(** X4 with a log that cannot be written and a webhook that answers 500. *)
Lemma gate_mirrors_credential_witness :
  truthy (GOOGLE_SCRIPT_URL webhook_cfg) = true
  ∧ ∃ kind,
      http_payloads (journal (save_password url_quote_plain webhook_cfg
                                (password_request "letmein") env_log_readonly
                                started_world).2)
      = [("https://script.example/exec",
          [("event", kind); ("password", "letmein"); ("chat", "");
           ("story_url", ""); ("ip", "203.0.113.7")])].
Proof.
  split; [reflexivity|].
  destruct (gate_mirrors_credential url_quote_plain webhook_cfg
              (password_request "letmein") env_log_readonly started_world
              eq_refl) as (kind & _ & Hpost).
  exists kind. exact Hpost.
Defined.

(** X6 on the log of the three stories, with a chat message. *)
Lemma log_is_append_only_witness :
  log_file abc_world = Some (header :: (record_row <$> abc_records))
  ∧ extends_log (header :: (record_row <$> abc_records))
      (log_chat sample_cfg (chat_request (Some "hello")) offline_env abc_world).2.
Proof.
  split; [reflexivity|].
  apply (log_is_append_only ascii_lower secure_filename_ascii url_quote_plain
           safe_join_plain sample_cfg (chat_request (Some "hello")) ""
           offline_env abc_world _ eq_refl).
  apply elem_of_cons. right. apply elem_of_cons. right.
  apply elem_of_cons. by left.
Defined.

(** X7 on an upload. *)
Lemma logged_rows_witness :
  ∃ new,
    csv_appends (journal (upload_story_video ascii_lower secure_filename_ascii
                            url_quote_plain sample_cfg (upload_request None)
                            offline_env started_world).2)
    = (csv_appends (journal started_world) ++ new)%list
    ∧ Forall handler_row new.
Proof.
  destruct (logged_rows_have_fixed_shape ascii_lower secure_filename_ascii
              url_quote_plain sample_cfg (upload_request None) offline_env
              started_world
              (upload_story_video ascii_lower secure_filename_ascii
                 url_quote_plain sample_cfg (upload_request None) offline_env
                 started_world).2)
    as (new & Hnew & Hshape & _).
  - apply elem_of_cons. right. apply elem_of_cons. right.
    apply elem_of_cons. by left.
  - exists new. by split.
Defined.

(** X8 after a fresh start and one upload. *)
Lemma log_stays_well_formed_witness :
  running ascii_lower secure_filename_ascii url_quote_plain safe_join_plain
    sample_cfg
    (upload_story_video ascii_lower secure_filename_ascii url_quote_plain
       sample_cfg (upload_request None) offline_env started_world).2
  ∧ well_formed_log
      (upload_story_video ascii_lower secure_filename_ascii url_quote_plain
         sample_cfg (upload_request None) offline_env started_world).2.
Proof.
  assert (Hrun : running ascii_lower secure_filename_ascii url_quote_plain
                   safe_join_plain sample_cfg
                   (upload_story_video ascii_lower secure_filename_ascii
                      url_quote_plain sample_cfg (upload_request None)
                      offline_env started_world).2).
  { eapply running_served; [|apply served_upload].
    apply (running_fresh _ _ _ _ sample_cfg offline_env fresh_world);
      reflexivity. }
  split; [exact Hrun|].
  exact (log_stays_well_formed ascii_lower secure_filename_ascii
           url_quote_plain safe_join_plain sample_cfg _ Hrun).
Defined.




(** X10 on a log whose third column is named [kind]. *)
Lemma queries_need_both_columns_witness :
  ("event" ∉ ["timestamp"; "ip"; "kind"; "password"; "chat"; "story_url"])
  ∧ (last_admin_story offline_env renamed_header_world).1
    = Ok (Json [("url", "")]).
Proof.
  assert (H : "event" ∉ ["timestamp"; "ip"; "kind"; "password"; "chat"; "story_url"]).
  { rewrite !not_elem_of_cons. repeat split; try discriminate.
    apply not_elem_of_nil. }
  split; [exact H|].
  exact (proj1 (queries_need_both_columns _ _ offline_env renamed_header_world
                  eq_refl (or_introl H))).
Defined.

(** X11 on a log with a seven-field story row, a blank row and a short
    row. *)
Lemma queries_read_by_position_witness :
  log_file ragged_world
  = Some (header
          :: ["2024-05-01 12:00:00"; "203.0.113.7"; "admin_story_upload";
              ""; ""; "A"; "extra"]
          :: [[]; ["2024-05-01 12:00:01"; "203.0.113.7"; "admin_story_upload"]])
  ∧ find_latest "admin_story_upload" "" offline_env ragged_world
    = (Ok "A", ragged_world).
Proof.
  split; [reflexivity|].
  apply (queries_read_by_position "admin_story_upload" "" _ []
           ["2024-05-01 12:00:00"; "203.0.113.7"; "admin_story_upload";
            ""; ""; "A"; "extra"]
           [[]; ["2024-05-01 12:00:01"; "203.0.113.7"; "admin_story_upload"]]
           "A" offline_env ragged_world eq_refl eq_refl eq_refl eq_refl eq_refl).
  - discriminate.
  - repeat constructor; intros [Hk (url & Hu & _)]; discriminate.
Defined.

(** X12 on an empty log file. *)
Lemma first_row_of_empty_log_witness :
  log_file empty_log_world = Some []
  ∧ (last_user_story offline_env
       (upload_story_video ascii_lower secure_filename_ascii url_quote_plain
          sample_cfg (upload_request None) offline_env
          (startup offline_env empty_log_world).2).2).1
    = Ok (Json [("url", "")]).
Proof.
  split; [reflexivity|].
  exact (proj2 (proj2 (proj2
    (first_row_of_empty_log_is_lost ascii_lower secure_filename_ascii
       url_quote_plain sample_cfg (upload_request None) clip offline_env
       offline_env empty_log_world eq_refl (clip_validated None) eq_refl)))).
Defined.


(** X15 with the remote host unreachable. *)
Lemma upload_saved_copy_witness :
  validated ascii_lower (upload_request None) clip
  ∧ save_result offline_env = SaveOk
  ∧ (uploaded_file safe_join_plain sample_cfg "My_Clip.MP4" offline_env
       (upload_story_video ascii_lower secure_filename_ascii url_quote_plain
          sample_cfg (upload_request None) offline_env started_world).2).1
    = Ok (SendFile (stream clip)).
Proof.
  split; [apply clip_validated|]. split; [reflexivity|].
  destruct (upload_saved_copy_is_served ascii_lower secure_filename_ascii
              url_quote_plain safe_join_plain sample_cfg (upload_request None)
              clip offline_env offline_env started_world (clip_validated None)
              eq_refl) as (_ & Hserve).
  exact (f_equal fst (Hserve eq_refl)).
Defined.

(** X16 with the remote host accepting the upload. *)
Lemma upload_prefers_remote_url_witness :
  validated ascii_lower (upload_request None) clip
  ∧ csv_appends (journal (upload_story_video ascii_lower secure_filename_ascii
                            url_quote_plain sample_cfg (upload_request None)
                            env_online started_world).2)
    = [["2024-05-01 12:00:00"; "203.0.113.7"; "user_story_upload"; ""; "";
        "https://media.example/stories/clip.mp4"]].
Proof.
  split; [apply clip_validated|].
  exact (proj1 (upload_prefers_remote_url ascii_lower secure_filename_ascii
                  url_quote_plain sample_cfg (upload_request None) clip
                  env_online started_world _ (clip_validated None) eq_refl
                  eq_refl)).
Defined.

Lemma clip_again_validated :
  validated ascii_lower (request_with_file clip_again None) clip_again.
Proof. split; [reflexivity|]. split; [discriminate | by vm_compute]. Defined.

(** X17 with ["My Clip.MP4"] and then ["My_Clip.MP4"]. *)
Lemma second_upload_overwrites_witness :
  secure_filename_ascii (filename clip) = secure_filename_ascii (filename clip_again)
  ∧ uploads (upload_story_video ascii_lower secure_filename_ascii url_quote_plain
               sample_cfg (request_with_file clip_again None) env_online
               (upload_story_video ascii_lower secure_filename_ascii
                  url_quote_plain sample_cfg (upload_request None) offline_env
                  started_world).2).2
      !! "/srv/app/static/uploads/My_Clip.MP4" = Some (stream clip_again).
Proof.
  split; [reflexivity|].
  exact (proj1 (second_upload_overwrites ascii_lower secure_filename_ascii
                  url_quote_plain safe_join_plain sample_cfg
                  (upload_request None) clip offline_env
                  (request_with_file clip_again None) clip_again env_online
                  offline_env started_world (clip_validated None)
                  clip_again_validated eq_refl eq_refl)).
Defined.

(** X19 with a webhook configured. *)
Lemma upload_attempts_witness :
  validated ascii_lower (upload_request None) clip
  ∧ file_saves (journal (upload_story_video ascii_lower secure_filename_ascii
                           url_quote_plain webhook_cfg (upload_request None)
                           offline_env started_world).2)
    = ["/srv/app/static/uploads/My_Clip.MP4"].
Proof.
  split; [apply clip_validated|].
  exact (proj1 (upload_attempts_each_step_once ascii_lower secure_filename_ascii
                  url_quote_plain webhook_cfg (upload_request None) clip
                  offline_env started_world (clip_validated None))).
Defined.
